(** * RelayBoardController: the USB-RLY08C serial client of [main.py]

    A shallow embedding of the class [RelayBoardController] and of the
    part of pyserial it talks to.  The controller object, the serial
    device behind it and the record of every transport call live in one
    [Machine]; the methods are computations of a state-and-exception
    monad over it, so that a mutation made before a [raise] stays made,
    as in Python. *)

From Stdlib Require Import ZArith List String Bool Lia.
From Stdlib Require Import Strings.Byte.
From Stdlib Require Import DecimalString.
Import ListNotations.
Local Open Scope string_scope.
Local Open Scope list_scope.
Local Open Scope Z_scope.

(** ** Exceptions and results *)

(** The two exception classes the controller raises or lets through:
    pyserial's [SerialException] (also used for "not connected") and
    the builtin [ValueError] (invalid channel). *)
Inductive exn : Type :=
| SerialException (msg : string)
| ValueError (msg : string).

Inductive result (A : Type) : Type :=
| Ok (a : A)
| Raise (e : exn).
Arguments Ok {A} a.
Arguments Raise {A} e.

(** ** Bytes *)

(** [response[0]]: indexing a [bytes] object gives an int in 0..255. *)
Definition int_of_byte (b : byte) : Z := Z.of_N (Byte.to_N b).

(** [bytes([x1, ..., xn])]: every element must be in [range(256)]. *)
Fixpoint bytes (xs : list Z) : result (list byte) :=
  match xs with
  | [] => Ok []
  | x :: rest =>
      if (0 <=? x) && (x <? 256) then
        match Byte.of_N (Z.to_N x), bytes rest with
        | Some b, Ok bs => Ok (b :: bs)
        | _, Raise e => Raise e
        | None, Ok _ => Raise (ValueError "bytes must be in range(0, 256)")
        end
      else Raise (ValueError "bytes must be in range(0, 256)")
  end.

(** ** The transport: pyserial as an interface *)

(** What the controller needs from pyserial, over an abstract state [Dev]
    of the host's serial devices and the board behind them.  A call may
    raise; it returns the device state it leaves behind in both cases. *)
Class SerialLib (Dev : Type) : Type := {
  (* [list_ports.comports()], already mapped to the device names *)
  comports : Dev -> list string;
  (* [serial.Serial(port, baudrate=, timeout=, write_timeout=)] *)
  Serial_open : string -> Z -> Z -> Z -> Dev -> result unit * Dev;
  (* [ser.close()]; closing a port is taken not to raise *)
  Serial_close : Dev -> Dev;
  (* [ser.reset_input_buffer()] *)
  Serial_reset_input_buffer : Dev -> result unit * Dev;
  (* [ser.write(data)] *)
  Serial_write : list byte -> Dev -> result unit * Dev;
  (* [ser.read(size)]: at most [size] bytes, fewer on timeout *)
  Serial_read : Z -> Dev -> result (list byte) * Dev
}.

(** One entry per call made on the transport, with its outcome. *)
Inductive io_event : Type :=
| IoOpen (port : string) (baudrate timeout write_timeout : Z) (r : result unit)
| IoClose
| IoResetInputBuffer (r : result unit)
| IoWrite (data : list byte) (r : result unit)
| IoRead (size : Z) (r : result (list byte)).

(** ** The controller object *)

(** A [serial.Serial] object as the controller sees it. *)
Record Serial : Type := mkSerial {
  ser_port : string;
  is_open : bool
}.

Record RelayBoardController : Type := mkController {
  _serial : option Serial;
  port : option string;
  state : Z
}.

Definition BAUDRATE : Z := 19200.
Definition GET_STATES_CMD : Z := 91.
Definition SET_STATES_CMD : Z := 92.

(** [__init__] *)
Definition init : RelayBoardController :=
  {| _serial := None; port := None; state := 0 |}.

Record Machine (Dev : Type) : Type := mkMachine {
  self : RelayBoardController;
  dev : Dev;
  log : list io_event
}.
Arguments mkMachine {Dev} self dev log.
Arguments self {Dev} m.
Arguments dev {Dev} m.
Arguments log {Dev} m.

(** ** The monad *)

Definition M (Dev A : Type) : Type := Machine Dev -> result A * Machine Dev.

Definition ret {Dev A : Type} (a : A) : M Dev A := fun m => (Ok a, m).

Definition raise {Dev A : Type} (e : exn) : M Dev A := fun m => (Raise e, m).

Definition bind {Dev A B : Type} (c : M Dev A) (k : A -> M Dev B) : M Dev B :=
  fun m =>
    match c m with
    | (Ok a, m') => k a m'
    | (Raise e, m') => (Raise e, m')
    end.

Definition lift {Dev A : Type} (r : result A) : M Dev A := fun m => (r, m).

(** [try: body / except SerialException as exc: handler exc]; any other
    exception passes through. *)
Definition try_except_SerialException {Dev A : Type}
    (body : M Dev A) (handler : string -> M Dev A) : M Dev A :=
  fun m =>
    match body m with
    | (Raise (SerialException msg), m') => handler msg m'
    | other => other
    end.

Declare Scope py_scope.
Delimit Scope py_scope with py.
Notation "x <- c ;; k" := (bind c (fun x => k))
  (at level 61, c at next level, right associativity) : py_scope.
Notation "c ;; k" := (bind c (fun _ => k))
  (at level 61, right associativity) : py_scope.
Local Open Scope py_scope.

(** The spec's names for the failures of the controller. *)
Definition NotConnectedError : exn :=
  SerialException "Relay board is not connected.".
Definition InvalidChannelError : exn :=
  ValueError "Channel must be between 1 and 8.".

Section Controller.

Context {Dev : Type} `{SerialLib Dev}.

(** *** Attribute access on [self] *)

Definition get_self : M Dev RelayBoardController := fun m => (Ok (self m), m).

Definition set__serial (v : option Serial) : M Dev unit := fun m =>
  (Ok tt, mkMachine {| _serial := v; port := port (self m); state := state (self m) |}
                    (dev m) (log m)).

Definition set_port (v : option string) : M Dev unit := fun m =>
  (Ok tt, mkMachine {| _serial := _serial (self m); port := v; state := state (self m) |}
                    (dev m) (log m)).

Definition set_state (v : Z) : M Dev unit := fun m =>
  (Ok tt, mkMachine {| _serial := _serial (self m); port := port (self m); state := v |}
                    (dev m) (log m)).

(** *** Calls on the transport, each one recorded in the log.  The handle
    [ser] is the controller's only one, so the device state stands for it. *)

Definition new_Serial (p : string) (baudrate timeout write_timeout : Z)
  : M Dev Serial := fun m =>
  let (r, d) := Serial_open p baudrate timeout write_timeout (dev m) in
  let m' := mkMachine (self m) d
              (log m ++ [IoOpen p baudrate timeout write_timeout r]) in
  match r with
  | Ok _ => (Ok {| ser_port := p; is_open := true |}, m')
  | Raise e => (Raise e, m')
  end.

(** [self._serial.close()]: the handle the controller holds is closed. *)
Definition close_Serial (ser : Serial) : M Dev unit := fun m =>
  (Ok tt,
   mkMachine {| _serial := Some {| ser_port := ser_port ser; is_open := false |};
                port := port (self m); state := state (self m) |}
             (Serial_close (dev m)) (log m ++ [IoClose])).

Definition reset_input_buffer (ser : Serial) : M Dev unit := fun m =>
  let (r, d) := Serial_reset_input_buffer (dev m) in
  (r, mkMachine (self m) d (log m ++ [IoResetInputBuffer r])).

Definition write (ser : Serial) (data : list byte) : M Dev unit := fun m =>
  let (r, d) := Serial_write data (dev m) in
  (r, mkMachine (self m) d (log m ++ [IoWrite data r])).

Definition read (ser : Serial) (size : Z) : M Dev (list byte) := fun m =>
  let (r, d) := Serial_read size (dev m) in
  (r, mkMachine (self m) d (log m ++ [IoRead size r])).

(** *** The methods of [RelayBoardController] *)

Definition available_ports : M Dev (list string) := fun m =>
  (Ok (comports (dev m)), m).

Definition is_connected (c : RelayBoardController) : bool :=
  match _serial c with
  | Some ser => is_open ser
  | None => false
  end.

Definition close : M Dev unit :=
  me <- get_self ;;
  match _serial me with
  | Some ser => if is_open ser then close_Serial ser else ret tt
  | None => ret tt
  end ;;
  set__serial None ;;
  set_port None.

Definition _ensure_connection : M Dev Serial :=
  me <- get_self ;;
  match _serial me with
  | Some ser =>
      if negb (is_open ser)
      then raise (SerialException "Relay board is not connected.")
      else ret ser
  | None => raise (SerialException "Relay board is not connected.")
  end.

Definition _send_command (command : Z) (payload : list byte) (read_bytes : Z)
  : M Dev (list byte) :=
  ser <- _ensure_connection ;;
  reset_input_buffer ser ;;
  cmd <- lift (bytes [command]) ;;
  write ser (cmd ++ payload) ;;
  if read_bytes =? 0 then ret [] else read ser read_bytes.

Definition get_states : M Dev (option Z) :=
  response <- _send_command GET_STATES_CMD [] 1 ;;
  match response with
  | b :: _ =>
      set_state (int_of_byte b) ;;
      me <- get_self ;;
      ret (Some (state me))
  | [] => ret None
  end.

Definition set_states (v : Z) : M Dev Z :=
  payload <- lift (bytes [Z.land v 255]) ;;
  _send_command SET_STATES_CMD payload 0 ;;
  set_state (Z.land v 255) ;;
  me <- get_self ;;
  ret (state me).

(** The one line both channel methods share:
    [s | (1 << (channel - 1)) if on else s & ~(1 << (channel - 1))]. *)
Definition apply_channel (on : bool) (s channel : Z) : Z :=
  if on then Z.lor s (Z.shiftl 1 (channel - 1))
  else Z.land s (Z.lnot (Z.shiftl 1 (channel - 1))).

Definition set_channel (channel : Z) (on : bool) : M Dev Z :=
  if (channel <? 1) || (channel >? 8)
  then raise (ValueError "Channel must be between 1 and 8.")
  else
    me <- get_self ;;
    set_states (apply_channel on (state me) channel).

(** The [for] loop of [set_channels], on its local variable [state]. *)
Fixpoint set_channels_loop (channels : list Z) (on : bool) (s : Z) : M Dev Z :=
  match channels with
  | [] => ret s
  | channel :: rest =>
      if (channel <? 1) || (channel >? 8)
      then raise (ValueError "Channel must be between 1 and 8.")
      else set_channels_loop rest on (apply_channel on s channel)
  end.

Definition set_channels (channels : list Z) (on : bool) : M Dev Z :=
  me <- get_self ;;
  s <- set_channels_loop channels on (state me) ;;
  set_states s.

Definition connect (p : string) : M Dev Z :=
  close ;;
  try_except_SerialException
    (ser <- new_Serial p BAUDRATE 1 1 ;;
     set__serial (Some ser))
    (fun exc =>
       set__serial None ;;
       set_port None ;;
       raise (SerialException exc)) ;;
  set_port (Some p) ;;
  states <- get_states ;;
  set_state (match states with Some s => s | None => 0 end) ;;
  me <- get_self ;;
  ret (state me).

(** *** The public interface, as one type of calls *)

Inductive api_call : Type :=
| Call_available_ports
| Call_is_connected
| Call_connect (p : string)
| Call_close
| Call_get_states
| Call_set_states (v : Z)
| Call_set_channel (channel : Z) (on : bool)
| Call_set_channels (channels : list Z) (on : bool).

(** The machine a call leaves behind, whether it returned or raised. *)
Definition after (c : api_call) (m : Machine Dev) : Machine Dev :=
  match c with
  | Call_available_ports => snd (available_ports m)
  | Call_is_connected => m
  | Call_connect p => snd (connect p m)
  | Call_close => snd (close m)
  | Call_get_states => snd (get_states m)
  | Call_set_states v => snd (set_states v m)
  | Call_set_channel channel on => snd (set_channel channel on m)
  | Call_set_channels channels on => snd (set_channels channels on m)
  end.

(** The machines a program can get to: a fresh controller on any device,
    then any calls of the interface. *)
Inductive reachable : Machine Dev -> Prop :=
| reachable_init (d : Dev) : reachable (mkMachine init d [])
| reachable_call (c : api_call) (m : Machine Dev) :
    reachable m -> reachable (after c m).

(** *** Vocabulary of the specification *)

(** A channel number of the external interface, 1..8. *)
Definition valid_channel (c : Z) : bool := (1 <=? c) && (c <=? 8).

(** The combined mask of a bulk operation, in the specification's words:
    the bit-set (if [on]) or bit-clear operation folded over the listed
    channels, starting from [s]. *)
Definition fold_channels (on : bool) (channels : list Z) (s : Z) : Z :=
  fold_left
    (fun acc c =>
       if on then Z.lor acc (Z.shiftl 1 (c - 1))
       else Z.land acc (Z.lnot (Z.shiftl 1 (c - 1))))
    channels s.

(** An operation "fails with NotConnectedError and has no side effect". *)
Definition fails_not_connected {A : Type} (c : M Dev A) (m : Machine Dev) : Prop :=
  c m = (Raise NotConnectedError, m).

(** The transport calls [evs] end in an accepted set-states command whose
    payload is [s]: a [set_states] that succeeded. *)
Definition written_by_set_states (evs : list io_event) (s : Z) : Prop :=
  exists pre b, evs = pre ++ [IoWrite [x5c; b] (Ok tt)] /\ s = int_of_byte b.

(** The transport calls [evs] end in a read that returned a byte equal to
    [s]: a [get_states] that got its response. *)
Definition read_by_get_states (evs : list io_event) (s : Z) : Prop :=
  exists pre b rest, evs = pre ++ [IoRead 1 (Ok (b :: rest))] /\ s = int_of_byte b.

(** The cache after call [c] is the cache before it, unless the call's
    transport traffic shows a successful write or an answered read. *)
Definition cache_changed_only_by_read_write (c : api_call) (m : Machine Dev) : Prop :=
  exists evs : list io_event,
    log (after c m) = log m ++ evs /\
    (state (self (after c m)) = state (self m) \/
     written_by_set_states evs (state (self (after c m))) \/
     read_by_get_states evs (state (self (after c m)))).

(** The same, with the one further case the code has: a [connect] whose
    initial read came back empty resets the cache to 0. *)
Definition cache_changed_only_by_read_write_connect
    (c : api_call) (m : Machine Dev) : Prop :=
  exists evs : list io_event,
    log (after c m) = log m ++ evs /\
    (state (self (after c m)) = state (self m) \/
     written_by_set_states evs (state (self (after c m))) \/
     read_by_get_states evs (state (self (after c m))) \/
     (exists p pre, c = Call_connect p /\
        evs = pre ++ [IoRead 1 (Ok [])] /\ state (self (after c m)) = 0)).

End Controller.

(** ** A simulated board

    An instance of the transport that behaves like a USB-RLY08C on one
    of the host's ports: it latches the mask of a set-states command and
    answers a get-states command with the latched mask, unless it is
    [sim_silent]; with [sim_stuck] every write times out. *)
Record SimBoard : Type := mkSim {
  sim_ports : list string;
  sim_relays : byte;
  sim_rx : list byte;
  sim_silent : bool;
  sim_stuck : bool
}.

Definition sim_open (p : string) (baudrate timeout write_timeout : Z)
    (d : SimBoard) : result unit * SimBoard :=
  if existsb (String.eqb p) (sim_ports d)
  then (Ok tt, d)
  else (Raise (SerialException "could not open port"), d).

Definition sim_clear_rx (d : SimBoard) : SimBoard :=
  mkSim (sim_ports d) (sim_relays d) [] (sim_silent d) (sim_stuck d).

Definition sim_write (data : list byte) (d : SimBoard) : result unit * SimBoard :=
  if sim_stuck d then (Raise (SerialException "Write timeout"), d)
  else
    match data with
    | [c] =>
        if Byte.eqb c x5b && negb (sim_silent d)
        then (Ok tt, mkSim (sim_ports d) (sim_relays d)
                           (sim_rx d ++ [sim_relays d]) (sim_silent d) (sim_stuck d))
        else (Ok tt, d)
    | [c; mask] =>
        if Byte.eqb c x5c
        then (Ok tt, mkSim (sim_ports d) mask (sim_rx d) (sim_silent d) (sim_stuck d))
        else (Ok tt, d)
    | _ => (Ok tt, d)
    end.

Definition sim_read (size : Z) (d : SimBoard) : result (list byte) * SimBoard :=
  (Ok (firstn (Z.to_nat size) (sim_rx d)),
   mkSim (sim_ports d) (sim_relays d) (skipn (Z.to_nat size) (sim_rx d))
         (sim_silent d) (sim_stuck d)).

#[export] Instance SimLib : SerialLib SimBoard := {|
  comports := sim_ports;
  Serial_open := sim_open;
  Serial_close := sim_clear_rx;
  Serial_reset_input_buffer := fun d => (Ok tt, sim_clear_rx d);
  Serial_write := sim_write;
  Serial_read := sim_read
|}.

(** A board on COM3 with the given latched mask. *)
Definition board (relays : byte) (silent stuck : bool) : SimBoard :=
  mkSim ["COM3"%string] relays [] silent stuck.

(** A controller connected to COM3 with cached state [s]. *)
Definition connected (s : Z) : RelayBoardController :=
  {| _serial := Some {| ser_port := "COM3"; is_open := true |};
     port := Some "COM3"%string;
     state := s |}.

(** ** Reading the transport log *)

(** The transport calls one [_send_command] can make, with its outcome
    [r]: none when the controller [c] is not connected, otherwise the
    flush, then the write of [data], then the read of [n] bytes if a
    reply was asked for, stopping at the first call that raises. *)
Definition command_traffic (c : RelayBoardController) (data : list byte) (n : Z)
    (r : result (list byte)) (evs : list io_event) : Prop :=
  (is_connected c = false /\ r = Raise NotConnectedError /\ evs = []) \/
  (is_connected c = true /\
   ((exists e, r = Raise e /\ evs = [IoResetInputBuffer (Raise e)]) \/
    (exists e, r = Raise e /\
       evs = [IoResetInputBuffer (Ok tt); IoWrite data (Raise e)]) \/
    (n = 0 /\ r = Ok [] /\
       evs = [IoResetInputBuffer (Ok tt); IoWrite data (Ok tt)]) \/
    (n <> 0 /\
       evs = [IoResetInputBuffer (Ok tt); IoWrite data (Ok tt); IoRead n r]))).

(** Replays a log against the ownership of the port: [held] says whether
    a port is open before the first entry.  The result is [None] if the
    log opens a port while one is held, or closes, flushes, writes or
    reads while none is; otherwise it says whether a port is held at the
    end. *)
Fixpoint port_usage (held : bool) (evs : list io_event) : option bool :=
  match evs with
  | [] => Some held
  | IoOpen _ _ _ _ r :: rest =>
      if held then None
      else port_usage (match r with Ok _ => true | Raise _ => false end) rest
  | IoClose :: rest => if held then port_usage false rest else None
  | _ :: rest => if held then port_usage true rest else None
  end.

(** Whether entry [ev] may come right after entry [prev]: a write only
    after a flush that succeeded, a read only after a write that was
    accepted. *)
Definition follows (prev : option io_event) (ev : io_event) : bool :=
  match ev with
  | IoWrite _ _ =>
      match prev with
      | Some (IoResetInputBuffer (Ok _)) => true
      | _ => false
      end
  | IoRead _ _ =>
      match prev with
      | Some (IoWrite _ (Ok _)) => true
      | _ => false
      end
  | _ => true
  end.

Fixpoint disciplined (prev : option io_event) (evs : list io_event) : bool :=
  match evs with
  | [] => true
  | ev :: rest => follows prev ev && disciplined (Some ev) rest
  end.

(** The controller holds no handle and no port name, or an open handle
    and the name of its port. *)
Definition handle_coherent (c : RelayBoardController) : Prop :=
  (_serial c = None /\ port c = None) \/
  (exists p, _serial c = Some {| ser_port := p; is_open := true |} /\ port c = Some p).

(** The calls that neither open nor close a port. *)
Definition keeps_connection (c : api_call) : bool :=
  match c with
  | Call_connect _ | Call_close => false
  | _ => true
  end.

(** A stretch of the log that starts with a port held or not ([held]),
    ends with one held or not ([held']), and in between keeps to the port the controller holds and to the order flush, write,
    read. *)
Definition orderly (held held' : bool) (evs : list io_event) : Prop :=
  port_usage held evs = Some held' /\ forall q, disciplined q evs = true.

(** * RelayBoardApp: the handlers of the window

    The widgets are kept as the data the handlers read and write: the
    Tk variables by their values, a button by its text and its state
    option, the message boxes as the list of the ones shown.  Layout is
    left out.  The controller the window owns is the one in the machine
    the handlers run on. *)

(** [str(n)] for a natural number. *)
Definition str_of_nat (n : nat) : string := NilZero.string_of_uint (Nat.to_uint n).

(** The newline of an f-string. *)
Definition nl : string := String (Ascii.ascii_of_nat 10) EmptyString.

(** A [ttk.Button]: what [configure(text=...)] and [configure(state=...)] set. *)
Record Button : Type := mkButton {
  btn_text : string;
  btn_state : string
}.

(** A call of [tkinter.messagebox]. *)
Inductive dialog : Type :=
| showinfo (title message : string)
| showwarning (title message : string)
| showerror (title message : string).

Record RelayBoardApp : Type := mkApp {
  port_var : string;
  status_var : string;
  active_vars : list bool;
  state_vars : list bool;
  toggle_buttons : list Button;
  port_combo_values : list string;
  connect_button : Button;
  bulk_buttons : list Button;
  dialogs : list dialog;
  destroyed : bool
}.

(** What leaves a handler uncaught: an exception of the controller that
    is not a [SerialException], or the [IndexError] of a list index. *)
Inductive uncaught : Type :=
| Uncaught (e : exn)
| IndexError.

(** [l[i] = f(l[i])] for [i >= 0]; [None] stands for [IndexError]. *)
Fixpoint update_at {A : Type} (l : list A) (i : nat) (f : A -> A) : option (list A) :=
  match l, i with
  | [], _ => None
  | x :: rest, O => Some (f x :: rest)
  | x :: rest, S i' => option_map (cons x) (update_at rest i' f)
  end.

(** [l[i]] for any integer [i]: a negative index counts from the end;
    [None] stands for [IndexError]. *)
Definition py_index {A : Type} (l : list A) (i : Z) : option A :=
  let j := if i <? 0 then i + Z.of_nat (List.length l) else i in
  if (0 <=? j) && (j <? Z.of_nat (List.length l)) then nth_error l (Z.to_nat j) else None.

(** [[idx + 1 for idx, active in enumerate(vars) if active.get()]], with
    [idx] the index of the head of [vars]. *)
Fixpoint selected_channels (idx : Z) (vars : list bool) : list Z :=
  match vars with
  | [] => []
  | active :: rest =>
      (if active then [idx + 1] else []) ++ selected_channels (idx + 1) rest
  end.

(** [f"Relay {idx + 1}: {'ON' if bit_on else 'OFF'}"] *)
Definition relay_label (idx : nat) (bit_on : bool) : string :=
  "Relay " ++ str_of_nat (idx + 1) ++ ": " ++ (if bit_on then "ON" else "OFF").

(** *** Assignments to the widgets *)

Definition set_port_var (a : RelayBoardApp) (v : string) : RelayBoardApp :=
  mkApp v (status_var a) (active_vars a) (state_vars a) (toggle_buttons a)
        (port_combo_values a) (connect_button a) (bulk_buttons a) (dialogs a)
        (destroyed a).

Definition set_status_var (a : RelayBoardApp) (v : string) : RelayBoardApp :=
  mkApp (port_var a) v (active_vars a) (state_vars a) (toggle_buttons a)
        (port_combo_values a) (connect_button a) (bulk_buttons a) (dialogs a)
        (destroyed a).

Definition set_active_vars (a : RelayBoardApp) (v : list bool) : RelayBoardApp :=
  mkApp (port_var a) (status_var a) v (state_vars a) (toggle_buttons a)
        (port_combo_values a) (connect_button a) (bulk_buttons a) (dialogs a)
        (destroyed a).

Definition set_state_vars (a : RelayBoardApp) (v : list bool) : RelayBoardApp :=
  mkApp (port_var a) (status_var a) (active_vars a) v (toggle_buttons a)
        (port_combo_values a) (connect_button a) (bulk_buttons a) (dialogs a)
        (destroyed a).

Definition set_toggle_buttons (a : RelayBoardApp) (v : list Button) : RelayBoardApp :=
  mkApp (port_var a) (status_var a) (active_vars a) (state_vars a) v
        (port_combo_values a) (connect_button a) (bulk_buttons a) (dialogs a)
        (destroyed a).

Definition set_port_combo_values (a : RelayBoardApp) (v : list string) : RelayBoardApp :=
  mkApp (port_var a) (status_var a) (active_vars a) (state_vars a) (toggle_buttons a)
        v (connect_button a) (bulk_buttons a) (dialogs a) (destroyed a).

Definition set_connect_button (a : RelayBoardApp) (v : Button) : RelayBoardApp :=
  mkApp (port_var a) (status_var a) (active_vars a) (state_vars a) (toggle_buttons a)
        (port_combo_values a) v (bulk_buttons a) (dialogs a) (destroyed a).

Definition set_bulk_buttons (a : RelayBoardApp) (v : list Button) : RelayBoardApp :=
  mkApp (port_var a) (status_var a) (active_vars a) (state_vars a) (toggle_buttons a)
        (port_combo_values a) (connect_button a) v (dialogs a) (destroyed a).

(** A message box is shown (and dismissed). *)
Definition show (a : RelayBoardApp) (d : dialog) : RelayBoardApp :=
  mkApp (port_var a) (status_var a) (active_vars a) (state_vars a) (toggle_buttons a)
        (port_combo_values a) (connect_button a) (bulk_buttons a) (dialogs a ++ [d])
        (destroyed a).

(** [self.root.destroy()] *)
Definition destroy (a : RelayBoardApp) : RelayBoardApp :=
  mkApp (port_var a) (status_var a) (active_vars a) (state_vars a) (toggle_buttons a)
        (port_combo_values a) (connect_button a) (bulk_buttons a) (dialogs a) true.

Definition configure_text (b : Button) (t : string) : Button :=
  {| btn_text := t; btn_state := btn_state b |}.

Definition configure_state (b : Button) (s : string) : Button :=
  {| btn_text := btn_text b; btn_state := s |}.

(** *** The handlers *)

Definition _set_controls_enabled (enabled : bool) (a : RelayBoardApp) : RelayBoardApp :=
  let st := if enabled then "normal" else "disabled" in
  let a1 := set_toggle_buttons a
              (map (fun btn => configure_state btn st) (toggle_buttons a)) in
  set_bulk_buttons a1 (map (fun widget => configure_state widget st) (bulk_buttons a1)).

(** The body of the loop of [_apply_state_to_ui], over the indices left. *)
Fixpoint _apply_state_to_ui_loop (idxs : list nat) (st : Z) (a : RelayBoardApp)
  : option uncaught * RelayBoardApp :=
  match idxs with
  | [] => (None, a)
  | idx :: rest =>
      let bit_on := negb (Z.land st (Z.shiftl 1 (Z.of_nat idx)) =? 0) in
      match update_at (state_vars a) idx (fun _ => bit_on) with
      | None => (Some IndexError, a)
      | Some vars =>
          let a1 := set_state_vars a vars in
          let label := relay_label idx bit_on in
          match update_at (toggle_buttons a1) idx
                  (fun btn => configure_text btn label) with
          | None => (Some IndexError, a1)
          | Some btns => _apply_state_to_ui_loop rest st (set_toggle_buttons a1 btns)
          end
      end
  end.

Definition _apply_state_to_ui (st : Z) (a : RelayBoardApp)
  : option uncaught * RelayBoardApp :=
  _apply_state_to_ui_loop (seq 0 8) st a.

Section App.

Context {Dev : Type} `{SerialLib Dev}.

Definition refresh_ports (a : RelayBoardApp) (m : Machine Dev)
  : option uncaught * RelayBoardApp * Machine Dev :=
  match available_ports m with
  | (Raise e, m1) => (Some (Uncaught e), a, m1)
  | (Ok ports, m1) =>
      let current := port_var a in
      let a1 := set_port_combo_values a ports in
      let a2 :=
        match ports with
        | first :: _ =>
            if negb (existsb (String.eqb current) ports)
            then set_port_var a1 first
            else a1
        | [] => set_port_var a1 ""
        end in
      (None,
       set_status_var a2
         (match ports with
          | _ :: _ => "Found " ++ str_of_nat (List.length ports) ++ " port(s)."
          | [] => "No COM ports detected."
          end),
       m1)
  end.

Definition toggle_connection (a : RelayBoardApp) (m : Machine Dev)
  : option uncaught * RelayBoardApp * Machine Dev :=
  if is_connected (self m) then
    match close m with
    | (Raise e, m1) => (Some (Uncaught e), a, m1)
    | (Ok _, m1) =>
        let a1 := set_status_var a "Disconnected" in
        let a2 := set_connect_button a1 (configure_text (connect_button a1) "Connect") in
        (None, _set_controls_enabled false a2, m1)
    end
  else
    let p := port_var a in
    if String.eqb p ""
    then (None,
          show a (showinfo "Select Port" "Please choose a COM port to connect."),
          m)
    else
      match connect p m with
      | (Raise (SerialException exc), m1) =>
          let a1 := show a (showerror "Connection Failed"
                              ("Could not open " ++ p ++ "." ++ nl ++ nl ++ exc)) in
          (None, set_status_var a1 "Disconnected", m1)
      | (Raise e, m1) => (Some (Uncaught e), a, m1)
      | (Ok st, m1) =>
          let a1 := set_status_var a ("Connected to " ++ p) in
          let a2 := set_connect_button a1
                      (configure_text (connect_button a1) "Disconnect") in
          let a3 := _set_controls_enabled true a2 in
          let (r, a4) := _apply_state_to_ui st a3 in
          (r, a4, m1)
      end.

Definition refresh_states (a : RelayBoardApp) (m : Machine Dev)
  : option uncaught * RelayBoardApp * Machine Dev :=
  if negb (is_connected (self m))
  then (None, show a (showinfo "Not connected" "Connect to a relay board first."), m)
  else
    match get_states m with
    | (Raise (SerialException exc), m1) =>
        (None, show a (showerror "Read Failed" exc), m1)
    | (Raise e, m1) => (Some (Uncaught e), a, m1)
    | (Ok None, m1) =>
        (None,
         show a (showwarning "No Response"
                   "The relay board did not return any state data."),
         m1)
    | (Ok (Some st), m1) =>
        let (r, a1) := _apply_state_to_ui st a in
        (r, a1, m1)
    end.

Definition toggle_relay (channel : Z) (a : RelayBoardApp) (m : Machine Dev)
  : option uncaught * RelayBoardApp * Machine Dev :=
  if negb (is_connected (self m))
  then (None, show a (showinfo "Not connected" "Connect to a relay board first."), m)
  else
    match py_index (state_vars a) (channel - 1) with
    | None => (Some IndexError, a, m)
    | Some shown =>
        let desired := negb shown in
        match set_channel channel desired m with
        | (Raise (SerialException exc), m1) =>
            (None, show a (showerror "Write Failed" exc), m1)
        | (Raise e, m1) => (Some (Uncaught e), a, m1)
        | (Ok st, m1) =>
            let (r, a1) := _apply_state_to_ui st a in
            (r, a1, m1)
        end
    end.

Definition set_selected (on : bool) (a : RelayBoardApp) (m : Machine Dev)
  : option uncaught * RelayBoardApp * Machine Dev :=
  if negb (is_connected (self m))
  then (None, show a (showinfo "Not connected" "Connect to a relay board first."), m)
  else
    let channels := selected_channels 0 (active_vars a) in
    match channels with
    | [] =>
        (None,
         show a (showinfo "No channels selected"
                   "Tick at least one channel to control."),
         m)
    | _ :: _ =>
        match set_channels channels on m with
        | (Raise (SerialException exc), m1) =>
            (None, show a (showerror "Write Failed" exc), m1)
        | (Raise e, m1) => (Some (Uncaught e), a, m1)
        | (Ok st, m1) =>
            let (r, a1) := _apply_state_to_ui st a in
            (r, a1, m1)
        end
    end.

Definition on_close (a : RelayBoardApp) (m : Machine Dev)
  : option uncaught * RelayBoardApp * Machine Dev :=
  match close m with
  | (Raise e, m1) => (Some (Uncaught e), a, m1)
  | (Ok _, m1) => (None, destroy a, m1)
  end.

(** The widgets as [_build_ui] leaves them, before the first
    [refresh_ports]. *)
Definition built_ui : RelayBoardApp :=
  {| port_var := "";
     status_var := "Disconnected";
     active_vars := repeat true 8;
     state_vars := repeat false 8;
     toggle_buttons :=
       map (fun idx => {| btn_text := "Relay " ++ str_of_nat (idx + 1) ++ ": OFF";
                          btn_state := "disabled" |})
           (seq 0 8);
     port_combo_values := [];
     connect_button := {| btn_text := "Connect"; btn_state := "normal" |};
     bulk_buttons :=
       [ {| btn_text := "Turn Selected On"; btn_state := "disabled" |};
         {| btn_text := "Turn Selected Off"; btn_state := "disabled" |};
         {| btn_text := "Read States"; btn_state := "disabled" |} ];
     dialogs := [];
     destroyed := false |}.

(** [RelayBoardApp.__init__] on the devices [d]: a fresh controller, the
    widgets, then [refresh_ports]. *)
Definition new_app (d : Dev) : option uncaught * RelayBoardApp * Machine Dev :=
  refresh_ports built_ui (mkMachine init d []).

(** *** What the user can do *)

Inductive gui_event : Type :=
| Click_refresh
| Click_connect
| Click_relay (idx : nat)
| Click_selected (on : bool)
| Click_read
| Close_window
| Tick (idx : nat) (v : bool)
| Choose_port (p : string).

(** The callback each event runs.  Button [idx] of the eight relay
    buttons calls [toggle_relay (idx + 1)]; a checkbox writes its
    [active_vars] entry and the port list writes [port_var]. *)
Definition handle (ev : gui_event) (a : RelayBoardApp) (m : Machine Dev)
  : option uncaught * RelayBoardApp * Machine Dev :=
  match ev with
  | Click_refresh => refresh_ports a m
  | Click_connect => toggle_connection a m
  | Click_relay idx => toggle_relay (Z.of_nat idx + 1) a m
  | Click_selected on => set_selected on a m
  | Click_read => refresh_states a m
  | Close_window => on_close a m
  | Tick idx v =>
      (None,
       match update_at (active_vars a) idx (fun _ => v) with
       | Some vars => set_active_vars a vars
       | None => a
       end,
       m)
  | Choose_port p => (None, set_port_var a p, m)
  end.

(** The events the window offers: there are eight relay buttons and
    eight checkboxes. *)
Definition offered (ev : gui_event) : bool :=
  match ev with
  | Click_relay idx => (idx <? 8)%nat
  | Tick idx _ => (idx <? 8)%nat
  | _ => true
  end.

(** The window and machine states a session can get to. *)
Inductive session : RelayBoardApp -> Machine Dev -> Prop :=
| session_start (d : Dev) :
    session (snd (fst (new_app d))) (snd (new_app d))
| session_event (ev : gui_event) (a : RelayBoardApp) (m : Machine Dev) :
    session a m -> offered ev = true ->
    session (snd (fst (handle ev a m))) (snd (handle ev a m)).

End App.

(** *** What the window shows *)

(** The window shows the mask [s]: indicator [idx] holds bit [idx] of
    [s] and relay button [idx] is labelled with it, for the eight
    relays. *)
Definition shows (a : RelayBoardApp) (s : Z) : Prop :=
  state_vars a = map (fun idx => Z.testbit s (Z.of_nat idx)) (seq 0 8) /\
  map btn_text (toggle_buttons a) =
    map (fun idx => relay_label idx (Z.testbit s (Z.of_nat idx))) (seq 0 8).

(** The window has its eight indicators, relay buttons and checkboxes. *)
Definition well_built (a : RelayBoardApp) : Prop :=
  List.length (state_vars a) = 8%nat /\
  List.length (toggle_buttons a) = 8%nat /\
  List.length (active_vars a) = 8%nat.

(** Every relay button and bulk button is disabled and the connection
    button offers to connect. *)
Definition controls_disabled (a : RelayBoardApp) : Prop :=
  Forall (fun b => btn_state b = "disabled") (toggle_buttons a ++ bulk_buttons a) /\
  btn_text (connect_button a) = "Connect".


(** ** Sessions on the simulated board *)

(** A machine three calls into a program: connect, switch relay 3 on,
    close. *)
Definition three_calls : Machine SimBoard :=
  after Call_close
    (after (Call_set_channel 3 true)
       (after (Call_connect "COM3") (mkMachine init (board x00 false false) []))).

(** The window right after start-up on a host whose COM3 carries a board
    with relays 2, 4 and 6 on, and after the user then clicked Connect. *)
Definition started : option uncaught * RelayBoardApp * Machine SimBoard :=
  new_app (board x2a false false).

Definition clicked_connect : option uncaught * RelayBoardApp * Machine SimBoard :=
  handle Click_connect (snd (fst started)) (snd started).

(** * Properties of the controller *)

Section Proofs.

Context {Dev : Type} `{SerialLib Dev}.

(** ** Bytes and 8-bit masks *)

Lemma u8_land (x : Z) : 0 <= x < 256 <-> Z.land x 255 = x.
Proof.
  change 255 with (Z.ones 8). rewrite Z.land_ones by lia.
  change (2 ^ 8) with 256. split; intro E.
  - apply Z.mod_small; exact E.
  - rewrite <- E. apply Z.mod_pos_bound. lia.
Qed.

Lemma int_of_byte_range (b : byte) : 0 <= int_of_byte b < 256.
Proof.
  unfold int_of_byte. pose proof (Byte.to_N_bounded b). lia.
Qed.

Lemma apply_channel_u8 (on : bool) (s c : Z) :
  0 <= s < 256 -> 1 <= c <= 8 -> 0 <= apply_channel on s c < 256.
Proof.
  intros Hs Hc. apply u8_land. apply u8_land in Hs.
  unfold apply_channel. destruct on.
  - rewrite Z.land_lor_distr_l, Hs. f_equal. apply u8_land.
    rewrite Z.shiftl_1_l. split; [apply Z.pow_nonneg; lia|].
    change 256 with (2 ^ 8). apply Z.pow_lt_mono_r; lia.
  - rewrite (Z.land_comm s), <- Z.land_assoc, Hs. reflexivity.
Qed.

Lemma bytes_int_of_byte (b : byte) : bytes [int_of_byte b] = Ok [b].
Proof.
  pose proof (int_of_byte_range b) as R. cbn [bytes].
  replace (0 <=? int_of_byte b) with true by (symmetry; apply Z.leb_le; lia).
  replace (int_of_byte b <? 256) with true by (symmetry; apply Z.ltb_lt; lia).
  cbn [andb]. unfold int_of_byte. rewrite N2Z.id, Byte.of_to_N. reflexivity.
Qed.

Lemma low_byte_exists (v : Z) : exists b, int_of_byte b = Z.land v 255.
Proof.
  assert (R : 0 <= Z.land v 255 < 256) by (apply u8_land; rewrite <- Z.land_assoc; reflexivity).
  destruct (Byte.of_N (Z.to_N (Z.land v 255))) as [b|] eqn:E.
  - exists b. unfold int_of_byte. apply Byte.to_of_N in E. rewrite E. lia.
  - apply Byte.of_N_None_iff in E. lia.
Qed.

(** ** The connection guard and the command transport *)

Lemma ensure_connection_ok (m : Machine Dev) :
  is_connected (self m) = true ->
  exists ser, _ensure_connection m = (Ok ser, m).
Proof.
  unfold is_connected, _ensure_connection, bind, get_self.
  destruct (_serial (self m)) as [ser|]; [|discriminate].
  intros ->. exists ser. reflexivity.
Qed.

Lemma ensure_connection_fails (m : Machine Dev) :
  is_connected (self m) = false ->
  _ensure_connection m = (Raise NotConnectedError, m).
Proof.
  unfold is_connected, _ensure_connection, bind, get_self.
  destruct (_serial (self m)) as [ser|]; [intros ->|]; reflexivity.
Qed.


Lemma send_command_disconnected (m : Machine Dev) (cmd : Z) (payload : list byte) (n : Z) :
  is_connected (self m) = false ->
  _send_command cmd payload n m = (Raise NotConnectedError, m).
Proof.
  intros D. unfold _send_command, bind at 1.
  rewrite (ensure_connection_fails m D). reflexivity.
Qed.

Lemma send_command_no_reply (m : Machine Dev) (c : byte) (payload : list byte) (d1 d2 : Dev) :
  is_connected (self m) = true ->
  Serial_reset_input_buffer (dev m) = (Ok tt, d1) ->
  Serial_write (c :: payload) d1 = (Ok tt, d2) ->
  _send_command (int_of_byte c) payload 0 m =
    (Ok [],
     mkMachine (self m) d2
       (log m ++ [IoResetInputBuffer (Ok tt); IoWrite (c :: payload) (Ok tt)])).
Proof.
  intros C R W. destruct (ensure_connection_ok m C) as [ser E].
  unfold _send_command, bind. rewrite E.
  unfold reset_input_buffer. rewrite R.
  unfold lift. rewrite bytes_int_of_byte.
  unfold write. cbn [dev self log app]. rewrite W.
  cbn [Z.eqb ret self log]. rewrite <- app_assoc. reflexivity.
Qed.

Lemma send_command_reply (m : Machine Dev) (c : byte) (payload : list byte)
    (n : Z) (bs : list byte) (d1 d2 d3 : Dev) :
  is_connected (self m) = true ->
  n <> 0 ->
  Serial_reset_input_buffer (dev m) = (Ok tt, d1) ->
  Serial_write (c :: payload) d1 = (Ok tt, d2) ->
  Serial_read n d2 = (Ok bs, d3) ->
  _send_command (int_of_byte c) payload n m =
    (Ok bs,
     mkMachine (self m) d3
       (log m ++ [IoResetInputBuffer (Ok tt); IoWrite (c :: payload) (Ok tt);
                  IoRead n (Ok bs)])).
Proof.
  intros C N R W Rd. destruct (ensure_connection_ok m C) as [ser E].
  unfold _send_command, bind. rewrite E.
  unfold reset_input_buffer. rewrite R.
  unfold lift. rewrite bytes_int_of_byte.
  unfold write. cbn [dev self log app]. rewrite W.
  apply Z.eqb_neq in N. rewrite N.
  unfold read. cbn [dev self log]. rewrite Rd.
  rewrite <- !app_assoc. reflexivity.
Qed.

Lemma set_states_run (m : Machine Dev) (v : Z) (b : byte) (d1 d2 : Dev) :
  is_connected (self m) = true ->
  int_of_byte b = Z.land v 255 ->
  Serial_reset_input_buffer (dev m) = (Ok tt, d1) ->
  Serial_write [x5c; b] d1 = (Ok tt, d2) ->
  set_states v m =
    (Ok (Z.land v 255),
     mkMachine {| _serial := _serial (self m); port := port (self m);
                  state := Z.land v 255 |}
               d2
               (log m ++ [IoResetInputBuffer (Ok tt); IoWrite [x5c; b] (Ok tt)])).
Proof.
  intros C B R W. unfold set_states, bind at 1, lift.
  rewrite <- B, bytes_int_of_byte. unfold bind at 1.
  change SET_STATES_CMD with (int_of_byte x5c).
  rewrite (send_command_no_reply m x5c [b] d1 d2 C R W).
  reflexivity.
Qed.


Lemma get_states_run (m : Machine Dev) (bs : list byte) (d1 d2 d3 : Dev) :
  is_connected (self m) = true ->
  Serial_reset_input_buffer (dev m) = (Ok tt, d1) ->
  Serial_write [x5b] d1 = (Ok tt, d2) ->
  Serial_read 1 d2 = (Ok bs, d3) ->
  get_states m =
    (Ok (match bs with [] => None | b :: _ => Some (int_of_byte b) end),
     mkMachine {| _serial := _serial (self m); port := port (self m);
                  state := match bs with
                           | [] => state (self m)
                           | b :: _ => int_of_byte b
                           end |}
               d3
               (log m ++ [IoResetInputBuffer (Ok tt); IoWrite [x5b] (Ok tt);
                          IoRead 1 (Ok bs)])).
Proof.
  intros C R W Rd. unfold get_states, bind at 1.
  change GET_STATES_CMD with (int_of_byte x5b).
  rewrite (send_command_reply m x5b [] 1 bs d1 d2 d3 C ltac:(discriminate) R W Rd).
  destruct bs as [|b rest]; [|reflexivity].
  destruct m as [[ser p s] d l]; reflexivity.
Qed.

Lemma invalid_test (c : Z) : (c <? 1) || (c >? 8) = negb (valid_channel c).
Proof.
  unfold valid_channel.
  destruct (Z.ltb_spec c 1), (Z.leb_spec 1 c), (Z.leb_spec c 8);
    rewrite Z.gtb_ltb; destruct (Z.ltb_spec 8 c); (reflexivity || lia).
Qed.


(** ** Channel validation and the loop of [set_channels] *)

Lemma valid_channel_iff (c : Z) : valid_channel c = true <-> 1 <= c <= 8.
Proof. unfold valid_channel. rewrite andb_true_iff, !Z.leb_le. reflexivity. Qed.

Lemma fold_channels_cons (on : bool) (c : Z) (rest : list Z) (s : Z) :
  fold_channels on (c :: rest) s = fold_channels on rest (apply_channel on s c).
Proof. reflexivity. Qed.

(** The loop never touches the machine; it raises iff some channel is
    out of range, and otherwise returns the folded mask. *)
Lemma set_channels_loop_run (channels : list Z) (on : bool) (s : Z) (m : Machine Dev) :
  set_channels_loop channels on s m =
    (if forallb valid_channel channels
     then Ok (fold_channels on channels s)
     else Raise InvalidChannelError,
     m).
Proof.
  revert s. induction channels as [|c rest IH]; intros s.
  - reflexivity.
  - cbn [set_channels_loop forallb]. rewrite invalid_test.
    destruct (valid_channel c); cbn [negb andb].
    + rewrite IH, fold_channels_cons. reflexivity.
    + reflexivity.
Qed.

Lemma forallb_first_invalid (pre : list Z) (c : Z) (rest : list Z) :
  c < 1 \/ 8 < c -> forallb valid_channel (pre ++ c :: rest) = false.
Proof.
  intros Hc. rewrite forallb_app. cbn [forallb].
  replace (valid_channel c) with false.
  - apply andb_false_r.
  - symmetry. apply not_true_is_false. rewrite valid_channel_iff. lia.
Qed.

Lemma fold_channels_u8 (on : bool) (channels : list Z) (s : Z) :
  0 <= s < 256 ->
  Forall (fun c => 1 <= c <= 8) channels ->
  0 <= fold_channels on channels s < 256.
Proof.
  intros Hs Hv. revert s Hs.
  induction Hv as [|c rest Hc _ IH]; intros s Hs.
  - exact Hs.
  - rewrite fold_channels_cons. apply IH. apply apply_channel_u8; assumption.
Qed.

Lemma set_channels_unfold (channels : list Z) (on : bool) (m : Machine Dev) :
  set_channels channels on m =
    if forallb valid_channel channels
    then set_states (fold_channels on channels (state (self m))) m
    else (Raise InvalidChannelError, m).
Proof.
  unfold set_channels, bind, get_self. rewrite set_channels_loop_run.
  destruct (forallb valid_channel channels); reflexivity.
Qed.

Lemma set_channel_unfold (c : Z) (on : bool) (m : Machine Dev) :
  set_channel c on m =
    if valid_channel c
    then set_states (apply_channel on (state (self m)) c) m
    else (Raise InvalidChannelError, m).
Proof.
  unfold set_channel. rewrite invalid_test.
  destruct (valid_channel c); reflexivity.
Qed.

Lemma set_states_disconnected (v : Z) (m : Machine Dev) :
  is_connected (self m) = false ->
  set_states v m = (Raise NotConnectedError, m).
Proof.
  intros D. destruct (low_byte_exists v) as [b B].
  unfold set_states, bind at 1, lift. rewrite <- B, bytes_int_of_byte.
  unfold bind at 1. rewrite send_command_disconnected by exact D. reflexivity.
Qed.

Lemma get_states_disconnected (m : Machine Dev) :
  is_connected (self m) = false ->
  get_states m = (Raise NotConnectedError, m).
Proof.
  intros D. unfold get_states, bind at 1.
  rewrite send_command_disconnected by exact D. reflexivity.
Qed.

Lemma set_channel_singleton_eq (m : Machine Dev) (c : Z) (on : bool) :
  set_channel c on m = set_channels [c] on m.
Proof.
  rewrite set_channel_unfold, set_channels_unfold.
  cbn [forallb]. rewrite andb_true_r. reflexivity.
Qed.

(** C10. [set_channel c on] and [set_channels [c] on] are the same
    computation: on every machine (connected or not) and for every [c]
    (in 1..8 or not) they return the same result and leave the same
    machine.  On a connected controller with cache [s] in 0..255, a
    channel [c] in 1..8 and a transport that accepts the command, that
    common outcome is: the mask [s | (1 << (c-1))] (if [on]) or
    [s & ~(1 << (c-1))] is returned, it is the new cache, and exactly
    one set-states write, with the mask as payload, is issued. *)
Theorem set_channel_is_singleton_set_channels :
  (forall (m : Machine Dev) (c : Z) (on : bool),
     set_channel c on m = set_channels [c] on m) /\
  (forall (m : Machine Dev) (c : Z) (on : bool) (mask : Z) (b : byte) (d1 d2 : Dev),
     is_connected (self m) = true ->
     0 <= state (self m) < 256 ->
     1 <= c <= 8 ->
     mask = (if on then Z.lor (state (self m)) (Z.shiftl 1 (c - 1))
             else Z.land (state (self m)) (Z.lnot (Z.shiftl 1 (c - 1)))) ->
     int_of_byte b = Z.land mask 255 ->
     Serial_reset_input_buffer (dev m) = (Ok tt, d1) ->
     Serial_write [x5c; b] d1 = (Ok tt, d2) ->
     int_of_byte b = mask /\
     set_channel c on m =
       (Ok mask,
        mkMachine {| _serial := _serial (self m); port := port (self m);
                     state := mask |}
                  d2
                  (log m ++ [IoResetInputBuffer (Ok tt); IoWrite [x5c; b] (Ok tt)])) /\
     set_channels [c] on m =
       (Ok mask,
        mkMachine {| _serial := _serial (self m); port := port (self m);
                     state := mask |}
                  d2
                  (log m ++ [IoResetInputBuffer (Ok tt); IoWrite [x5c; b] (Ok tt)]))).
Proof.
  split; [exact set_channel_singleton_eq|].
  intros m c on mask b d1 d2 C Hs Hc Hm B R W.
  assert (U : Z.land mask 255 = mask).
  { apply u8_land. rewrite Hm. apply (apply_channel_u8 on _ c Hs Hc). }
  assert (E : set_channel c on m =
                (Ok mask,
                 mkMachine {| _serial := _serial (self m); port := port (self m);
                              state := mask |}
                           d2
                           (log m ++ [IoResetInputBuffer (Ok tt);
                                      IoWrite [x5c; b] (Ok tt)]))).
  { rewrite set_channel_unfold.
    replace (valid_channel c) with true
      by (symmetry; apply valid_channel_iff; exact Hc).
    change (apply_channel on (state (self m)) c)
      with (if on then Z.lor (state (self m)) (Z.shiftl 1 (c - 1))
            else Z.land (state (self m)) (Z.lnot (Z.shiftl 1 (c - 1)))).
    rewrite <- Hm, (set_states_run m mask b d1 d2 C B R W), U. reflexivity. }
  split; [congruence|]. split; [exact E|].
  rewrite <- set_channel_singleton_eq. exact E.
Qed.


(** ** The claims about single operations *)

(** C6. On a connected controller whose transport accepts the command,
    [set_states v] makes one write of the set-states byte followed by
    one payload byte [b], the low 8 bits of [v]; nothing is read; the
    cache becomes [v & 0xFF] and that value is returned, whatever the
    cache was.  Reading the cache back after [set_states 0b10110000]
    gives [0b10110000]. *)
Theorem set_states_writes_low_byte (m : Machine Dev) (v : Z) (b : byte) (d1 d2 : Dev) :
  is_connected (self m) = true ->
  int_of_byte b = Z.land v 255 ->
  Serial_reset_input_buffer (dev m) = (Ok tt, d1) ->
  Serial_write [x5c; b] d1 = (Ok tt, d2) ->
  set_states v m =
    (Ok (Z.land v 255),
     mkMachine {| _serial := _serial (self m); port := port (self m);
                  state := Z.land v 255 |}
               d2
               (log m ++ [IoResetInputBuffer (Ok tt); IoWrite [x5c; b] (Ok tt)])).
Proof. exact (set_states_run m v b d1 d2). Qed.

(** C5. On a connected controller whose transport accepts the get-states
    command, [get_states] returns [None] (a normal return, not a raise)
    and leaves the cache alone when the read comes back empty; when a
    byte comes back it stores that byte in the cache and returns it. *)
Theorem get_states_response_or_no_data (m : Machine Dev) (bs : list byte) (d1 d2 d3 : Dev) :
  is_connected (self m) = true ->
  Serial_reset_input_buffer (dev m) = (Ok tt, d1) ->
  Serial_write [x5b] d1 = (Ok tt, d2) ->
  Serial_read 1 d2 = (Ok bs, d3) ->
  get_states m =
    (Ok (match bs with [] => None | b :: _ => Some (int_of_byte b) end),
     mkMachine {| _serial := _serial (self m); port := port (self m);
                  state := match bs with
                           | [] => state (self m)
                           | b :: _ => int_of_byte b
                           end |}
               d3
               (log m ++ [IoResetInputBuffer (Ok tt); IoWrite [x5b] (Ok tt);
                          IoRead 1 (Ok bs)])).
Proof. exact (get_states_run m bs d1 d2 d3). Qed.

(** C2. On a connected controller with cache [s] in 0..255 and a channel
    [c] in 1..8, [set_channel c true] yields [s | (1 << (c-1))] and
    [set_channel c false] yields [s & ~(1 << (c-1))]; the value already
    fits 8 bits, it is the payload written to the board, the new cache
    and the result. *)
Theorem set_channel_mask (m : Machine Dev) (c : Z) (on : bool) (mask : Z)
    (b : byte) (d1 d2 : Dev) :
  is_connected (self m) = true ->
  0 <= state (self m) < 256 ->
  1 <= c <= 8 ->
  mask = (if on then Z.lor (state (self m)) (Z.shiftl 1 (c - 1))
          else Z.land (state (self m)) (Z.lnot (Z.shiftl 1 (c - 1)))) ->
  int_of_byte b = Z.land mask 255 ->
  Serial_reset_input_buffer (dev m) = (Ok tt, d1) ->
  Serial_write [x5c; b] d1 = (Ok tt, d2) ->
  int_of_byte b = mask /\
  set_channel c on m =
    (Ok mask,
     mkMachine {| _serial := _serial (self m); port := port (self m); state := mask |}
               d2
               (log m ++ [IoResetInputBuffer (Ok tt); IoWrite [x5c; b] (Ok tt)])).
Proof.
  intros C Hs Hc Hm B R W.
  assert (U : Z.land mask 255 = mask).
  { apply u8_land. rewrite Hm. apply (apply_channel_u8 on _ c Hs Hc). }
  split; [congruence|].
  rewrite set_channel_unfold.
  replace (valid_channel c) with true by (symmetry; apply valid_channel_iff; exact Hc).
  change (apply_channel on (state (self m)) c)
    with (if on then Z.lor (state (self m)) (Z.shiftl 1 (c - 1))
          else Z.land (state (self m)) (Z.lnot (Z.shiftl 1 (c - 1)))).
  rewrite <- Hm, (set_states_run m mask b d1 d2 C B R W), U.
  reflexivity.
Qed.

Lemma set_channels_run (m : Machine Dev) (channels : list Z) (on : bool)
    (mask : Z) (b : byte) (d1 d2 : Dev) :
  is_connected (self m) = true ->
  0 <= state (self m) < 256 ->
  Forall (fun c => 1 <= c <= 8) channels ->
  mask = fold_channels on channels (state (self m)) ->
  int_of_byte b = Z.land mask 255 ->
  Serial_reset_input_buffer (dev m) = (Ok tt, d1) ->
  Serial_write [x5c; b] d1 = (Ok tt, d2) ->
  int_of_byte b = mask /\
  set_channels channels on m =
    (Ok mask,
     mkMachine {| _serial := _serial (self m); port := port (self m); state := mask |}
               d2
               (log m ++ [IoResetInputBuffer (Ok tt); IoWrite [x5c; b] (Ok tt)])).
Proof.
  intros C Hs Hv Hm B R W.
  assert (U : Z.land mask 255 = mask).
  { apply u8_land. rewrite Hm. apply fold_channels_u8; assumption. }
  split; [congruence|].
  rewrite set_channels_unfold.
  replace (forallb valid_channel channels) with true.
  - rewrite <- Hm, (set_states_run m mask b d1 d2 C B R W), U. reflexivity.
  - symmetry. apply forallb_forall. intros c Hin. apply valid_channel_iff.
    rewrite Forall_forall in Hv. exact (Hv c Hin).
Qed.

(** C1. On a connected controller with cache [s] in 0..255 whose
    transport accepts the command, [set_channels channels on] with every
    channel in 1..8 computes the mask by folding the bit-set (if [on])
    or bit-clear operation over the channels from [s], and makes exactly
    one set-states write, whose payload is that mask; the mask is the
    new cache and the result.  In particular, from cache 0,
    [set_channels [2;4;6] true] writes payload 0x2A and leaves the
    cache at 0x2A. *)
Theorem set_channels_single_write :
  (forall (m : Machine Dev) (channels : list Z) (on : bool)
          (mask : Z) (b : byte) (d1 d2 : Dev),
     is_connected (self m) = true ->
     0 <= state (self m) < 256 ->
     Forall (fun c => 1 <= c <= 8) channels ->
     mask = fold_channels on channels (state (self m)) ->
     int_of_byte b = Z.land mask 255 ->
     Serial_reset_input_buffer (dev m) = (Ok tt, d1) ->
     Serial_write [x5c; b] d1 = (Ok tt, d2) ->
     int_of_byte b = mask /\
     set_channels channels on m =
       (Ok mask,
        mkMachine {| _serial := _serial (self m); port := port (self m);
                     state := mask |}
                  d2
                  (log m ++ [IoResetInputBuffer (Ok tt); IoWrite [x5c; b] (Ok tt)]))) /\
  (forall (m : Machine Dev) (d1 d2 : Dev),
     is_connected (self m) = true ->
     state (self m) = 0 ->
     Serial_reset_input_buffer (dev m) = (Ok tt, d1) ->
     Serial_write [x5c; x2a] d1 = (Ok tt, d2) ->
     set_channels [2; 4; 6] true m =
       (Ok 42,
        mkMachine {| _serial := _serial (self m); port := port (self m);
                     state := 42 |}
                  d2
                  (log m ++ [IoResetInputBuffer (Ok tt);
                             IoWrite [x5c; x2a] (Ok tt)]))).
Proof.
  split.
  - exact set_channels_run.
  - intros m d1 d2 C S R W.
    apply (set_channels_run m [2; 4; 6] true 42 x2a d1 d2 C).
    + rewrite S. lia.
    + repeat constructor; lia.
    + rewrite S. reflexivity.
    + reflexivity.
    + exact R.
    + exact W.
Qed.

(** C3. A channel outside 1..8 makes [set_channel] raise the invalid
    channel error, and a sequence holding such a channel makes
    [set_channels] raise it, whatever precedes or follows the entry; the
    machine is the one before the call: cache unchanged, nothing sent. *)
Theorem invalid_channel_rejected (m : Machine Dev) (on : bool) :
  (forall c, c < 1 \/ 8 < c ->
     set_channel c on m = (Raise InvalidChannelError, m)) /\
  (forall pre c rest,
     c < 1 \/ 8 < c ->
     set_channels (pre ++ c :: rest) on m = (Raise InvalidChannelError, m)).
Proof.
  split.
  - intros c Hc. rewrite set_channel_unfold.
    replace (valid_channel c) with false; [reflexivity|].
    symmetry. apply not_true_is_false. rewrite valid_channel_iff. lia.
  - intros pre c rest Hc. rewrite set_channels_unfold.
    rewrite forallb_first_invalid by exact Hc. reflexivity.
Qed.

(** C4, amended. On a controller that is not connected, [get_states]
    and [set_states] raise the not-connected error; [set_channel] and
    [set_channels] raise it when every channel is in 1..8 and raise the
    invalid channel error otherwise, the range check coming first.  In
    every case the machine is unchanged: no transport call, same cache,
    same connection state. *)
Theorem disconnected_calls_fail_without_io (m : Machine Dev) :
  is_connected (self m) = false ->
  fails_not_connected get_states m /\
  (forall v, fails_not_connected (set_states v) m) /\
  (forall c on,
     set_channel c on m =
       (Raise (if valid_channel c then NotConnectedError else InvalidChannelError), m)) /\
  (forall channels on,
     set_channels channels on m =
       (Raise (if forallb valid_channel channels
               then NotConnectedError else InvalidChannelError), m)).
Proof.
  intros D. unfold fails_not_connected. repeat split.
  - apply get_states_disconnected, D.
  - intros v. apply set_states_disconnected, D.
  - intros c on. rewrite set_channel_unfold.
    destruct (valid_channel c); [apply set_states_disconnected, D|reflexivity].
  - intros channels on. rewrite set_channels_unfold.
    destruct (forallb valid_channel channels);
      [apply set_states_disconnected, D|reflexivity].
Qed.


Lemma close_run (m : Machine Dev) :
  close m =
    (Ok tt,
     mkMachine {| _serial := None; port := None; state := state (self m) |}
               (if is_connected (self m) then Serial_close (dev m) else dev m)
               (if is_connected (self m) then log m ++ [IoClose] else log m)).
Proof.
  destruct m as [[[[pn [|]]|] p s] d l]; reflexivity.
Qed.

Lemma connect_open_failure (m : Machine Dev) (p msg : string) (d1 : Dev) :
  Serial_open p BAUDRATE 1 1 (dev (snd (close m))) = (Raise (SerialException msg), d1) ->
  connect p m =
    (Raise (SerialException msg),
     mkMachine {| _serial := None; port := None; state := state (self m) |}
               d1
               (log (snd (close m)) ++
                [IoOpen p BAUDRATE 1 1 (Raise (SerialException msg))])).
Proof.
  rewrite close_run. cbn [snd dev log]. intros O.
  unfold connect, bind at 1. rewrite close_run.
  unfold bind at 1, try_except_SerialException, bind at 1, new_Serial.
  cbn [dev log self]. rewrite O. reflexivity.
Qed.

(** ** Connecting *)

(** C7. When the port opens and the initial get-states read comes back
    empty, [connect] returns normally: the controller holds the open
    handle, the cache is 0 and 0 is returned. *)
Theorem connect_no_data_defaults_to_off (m : Machine Dev) (p : string) (d1 d2 d3 d4 : Dev) :
  Serial_open p BAUDRATE 1 1 (dev (snd (close m))) = (Ok tt, d1) ->
  Serial_reset_input_buffer d1 = (Ok tt, d2) ->
  Serial_write [x5b] d2 = (Ok tt, d3) ->
  Serial_read 1 d3 = (Ok [], d4) ->
  connect p m =
    (Ok 0,
     mkMachine {| _serial := Some {| ser_port := p; is_open := true |};
                  port := Some p; state := 0 |}
               d4
               (log (snd (close m)) ++
                [IoOpen p BAUDRATE 1 1 (Ok tt); IoResetInputBuffer (Ok tt);
                 IoWrite [x5b] (Ok tt); IoRead 1 (Ok [])])).
Proof.
  rewrite close_run. cbn [snd dev log]. intros O R W Rd.
  unfold connect, bind at 1. rewrite close_run.
  unfold bind at 1, try_except_SerialException, bind at 1, new_Serial.
  cbn [dev log self]. rewrite O.
  unfold set__serial, bind at 1, set_port, bind at 1. cbn [dev log self _serial port state].
  erewrite get_states_run; [| reflexivity | exact R | exact W | exact Rd].
  cbn -[BAUDRATE]. rewrite <- app_assoc. reflexivity.
Qed.


(** What any [_send_command] leaves behind: the controller object is
    untouched, the log only grows, and a normal return ends in the
    accepted write (no reply asked) or in the read (reply asked). *)
Lemma send_command_frame (m m' : Machine Dev) (c : byte) (payload : list byte)
    (n : Z) (r : result (list byte)) :
  _send_command (int_of_byte c) payload n m = (r, m') ->
  self m' = self m /\
  exists evs,
    log m' = log m ++ evs /\
    match r with
    | Ok bs =>
        exists pre,
          evs = pre ++ [if n =? 0 then IoWrite (c :: payload) (Ok tt)
                        else IoRead n (Ok bs)]
    | Raise _ => True
    end.
Proof.
  unfold _send_command, bind at 1.
  destruct (is_connected (self m)) eqn:C.
  - destruct (ensure_connection_ok m C) as [ser ->].
    unfold bind at 1, reset_input_buffer.
    destruct (Serial_reset_input_buffer (dev m)) as [[[]|e] d1].
    2:{ intros [= <- <-]. split; [reflexivity|].
        eexists; split; [reflexivity|exact I]. }
    unfold bind at 1, lift. rewrite bytes_int_of_byte.
    unfold bind at 1, write. cbn [dev self log].
    destruct (Serial_write ([c] ++ payload) d1) as [[[]|e] d2].
    2:{ intros [= <- <-]. split; [reflexivity|]. cbn [log].
        rewrite <- app_assoc. eexists; split; [reflexivity|exact I]. }
    destruct (n =? 0).
    + intros [= <- <-]. split; [reflexivity|]. cbn [log].
      rewrite <- app_assoc. eexists; split; [reflexivity|].
      exists [IoResetInputBuffer (Ok tt)]. reflexivity.
    + unfold read. cbn [dev self log].
      destruct (Serial_read n d2) as [[bs|e] d3]; intros [= <- <-];
        (split; [reflexivity|]); cbn [log]; rewrite <- !app_assoc;
        (eexists; split; [reflexivity|]); [|exact I].
      exists [IoResetInputBuffer (Ok tt); IoWrite ([c] ++ payload) (Ok tt)]. reflexivity.
  - rewrite (ensure_connection_fails m C). intros [= <- <-].
    split; [reflexivity|]. exists []. rewrite app_nil_r. split; [reflexivity|exact I].
Qed.

Lemma get_states_frame (m m' : Machine Dev) (r : result (option Z)) :
  get_states m = (r, m') ->
  _serial (self m') = _serial (self m) /\
  port (self m') = port (self m) /\
  exists evs,
    log m' = log m ++ evs /\
    match r with
    | Ok (Some s) => state (self m') = s /\ read_by_get_states evs s
    | Ok None =>
        state (self m') = state (self m) /\
        exists pre, evs = pre ++ [IoRead 1 (Ok [])]
    | Raise _ => state (self m') = state (self m)
    end.
Proof.
  unfold get_states, bind at 1. change GET_STATES_CMD with (int_of_byte x5b).
  destruct (_send_command (int_of_byte x5b) [] 1 m) as [r0 m0] eqn:E.
  apply send_command_frame in E. destruct E as [S (evs & L & T)].
  destruct r0 as [[|b rest]|e]; intros [= <- <-]; cbn [self log _serial port state];
    rewrite ?S; (split; [reflexivity|]); (split; [reflexivity|]);
    exists evs; (split; [exact L|]).
  - split; [reflexivity|]. exact T.
  - split; [reflexivity|]. destruct T as [pre ->]. exists pre, b, rest.
    split; reflexivity.
  - reflexivity.
Qed.

Lemma set_states_frame (m m' : Machine Dev) (v : Z) (r : result Z) :
  set_states v m = (r, m') ->
  _serial (self m') = _serial (self m) /\
  port (self m') = port (self m) /\
  exists evs,
    log m' = log m ++ evs /\
    match r with
    | Ok s => state (self m') = s /\ s = Z.land v 255 /\ written_by_set_states evs s
    | Raise _ => state (self m') = state (self m)
    end.
Proof.
  destruct (low_byte_exists v) as [b B].
  unfold set_states, bind at 1, lift. rewrite <- B, bytes_int_of_byte.
  unfold bind at 1. change SET_STATES_CMD with (int_of_byte x5c).
  destruct (_send_command (int_of_byte x5c) [b] 0 m) as [r0 m0] eqn:E.
  apply send_command_frame in E. destruct E as [S (evs & L & T)].
  destruct r0 as [bs|e]; intros [= <- <-]; cbn [self log _serial port state];
    rewrite ?S; (split; [reflexivity|]); (split; [reflexivity|]);
    exists evs; (split; [exact L|]).
  - split; [reflexivity|]. split; [reflexivity|].
    destruct T as [pre ->]. exists pre, b. split; reflexivity.
  - reflexivity.
Qed.


Lemma close_log (m : Machine Dev) :
  exists evs, log (snd (close m)) = log m ++ evs.
Proof.
  rewrite close_run. cbn [snd log]. destruct (is_connected (self m)).
  - exists [IoClose]. reflexivity.
  - exists []. symmetry. apply app_nil_r.
Qed.

Lemma bind_eq {A B : Type} (c : M Dev A) (k : A -> M Dev B) (m : Machine Dev) :
  bind c k m =
    match c m with
    | (Ok a, m') => k a m'
    | (Raise e, m') => (Raise e, m')
    end.
Proof. reflexivity. Qed.

Lemma connect_frame (m : Machine Dev) (p : string) :
  cache_changed_only_by_read_write_connect (Call_connect p) m.
Proof.
  unfold cache_changed_only_by_read_write_connect. cbn [after].
  destruct (close_log m) as [evs0 L0]. revert L0.
  unfold connect. rewrite bind_eq, close_run. cbn [snd log].
  set (l0 := if is_connected (self m) then log m ++ [IoClose] else log m).
  set (d0 := if is_connected (self m) then Serial_close (dev m) else dev m).
  intros L0.
  rewrite bind_eq. unfold try_except_SerialException. rewrite bind_eq.
  unfold new_Serial. cbn [dev log self].
  destruct (Serial_open p BAUDRATE 1 1 d0) as [[[]|[msg|msg]] d1].
  - unfold set__serial. rewrite bind_eq. unfold set_port. rewrite bind_eq.
    cbn [dev log self _serial port state].
    match goal with |- context [get_states ?x] => set (m2 := x) end.
    destruct (get_states m2) as [r m3] eqn:E.
    apply get_states_frame in E. destruct E as (_ & _ & evs & L & T).
    subst m2. cbn [log self state] in L, T. rewrite L0, <- !app_assoc in L.
    destruct r as [[s|]|e]; cbn [snd self state log set_state bind get_self ret].
    + exists (evs0 ++ [IoOpen p BAUDRATE 1 1 (Ok tt)] ++ evs). split; [exact L|].
      destruct T as [_ (pre & b & rest & -> & ->)].
      right; right; left. exists (evs0 ++ [IoOpen p BAUDRATE 1 1 (Ok tt)] ++ pre), b, rest.
      rewrite <- !app_assoc. split; reflexivity.
    + exists (evs0 ++ [IoOpen p BAUDRATE 1 1 (Ok tt)] ++ evs). split; [exact L|].
      destruct T as [_ (pre & ->)].
      right; right; right. exists p, (evs0 ++ [IoOpen p BAUDRATE 1 1 (Ok tt)] ++ pre).
      rewrite <- !app_assoc. repeat split; reflexivity.
    + exists (evs0 ++ [IoOpen p BAUDRATE 1 1 (Ok tt)] ++ evs). split; [exact L|].
      left. exact T.
  - cbn [snd self state log set__serial set_port raise bind]. rewrite L0, <- app_assoc.
    eexists; split; [reflexivity|]. left; reflexivity.
  - cbn [snd self state log]. rewrite L0, <- app_assoc.
    eexists; split; [reflexivity|]. left; reflexivity.
Qed.


Lemma set_states_frame_after (m : Machine Dev) (v : Z) :
  exists evs,
    log (snd (set_states v m)) = log m ++ evs /\
    (state (self (snd (set_states v m))) = state (self m) \/
     written_by_set_states evs (state (self (snd (set_states v m))))).
Proof.
  destruct (set_states v m) as [r m'] eqn:E.
  apply set_states_frame in E. destruct E as (_ & _ & evs & L & T).
  exists evs. split; [exact L|]. cbn [snd].
  destruct r as [s|e]; [right|left; exact T].
  destruct T as (-> & _ & W). exact W.
Qed.

Lemma unchanged_frame (c : api_call) (m : Machine Dev) :
  after c m = m -> cache_changed_only_by_read_write_connect c m.
Proof.
  intros E. exists []. rewrite E, app_nil_r. split; [reflexivity|left; reflexivity].
Qed.

Lemma after_frame (c : api_call) (m : Machine Dev) :
  cache_changed_only_by_read_write_connect c m.
Proof.
  destruct c as [| |p| | |v|ch on|chs on].
  - apply unchanged_frame. reflexivity.
  - apply unchanged_frame. reflexivity.
  - apply connect_frame.
  - destruct (close_log m) as [evs L]. exists evs. split; [exact L|].
    left. cbn [after]. rewrite close_run. reflexivity.
  - unfold cache_changed_only_by_read_write_connect. cbn [after].
    destruct (get_states m) as [r m'] eqn:E.
    apply get_states_frame in E. destruct E as (_ & _ & evs & L & T).
    exists evs. split; [exact L|]. cbn [snd].
    destruct r as [[s|]|e].
    + destruct T as [-> R]. right; right; left. exact R.
    + left. apply T.
    + left. exact T.
  - destruct (set_states_frame_after m v) as (evs & L & [U|W]);
      exists evs; (split; [exact L|]); [left; exact U|right; left; exact W].
  - unfold cache_changed_only_by_read_write_connect. cbn [after].
    rewrite set_channel_unfold. destruct (valid_channel ch).
    + destruct (set_states_frame_after m (apply_channel on (state (self m)) ch))
        as (evs & L & [U|W]);
        exists evs; (split; [exact L|]); [left; exact U|right; left; exact W].
    + exists []. rewrite app_nil_r. split; [reflexivity|left; reflexivity].
  - unfold cache_changed_only_by_read_write_connect. cbn [after].
    rewrite set_channels_unfold. destruct (forallb valid_channel chs).
    + destruct (set_states_frame_after m (fold_channels on chs (state (self m))))
        as (evs & L & [U|W]);
        exists evs; (split; [exact L|]); [left; exact U|right; left; exact W].
    + exists []. rewrite app_nil_r. split; [reflexivity|left; reflexivity].
Qed.

(** The cache is a byte whatever is called: every call of the interface
    keeps it within 0..255. *)
Lemma cache_stays_u8 (c : api_call) (m : Machine Dev) :
  0 <= state (self m) < 256 -> 0 <= state (self (after c m)) < 256.
Proof.
  intros R. destruct (after_frame c m) as (evs & _ & [E|[W|[G|Z0]]]).
  - rewrite E. exact R.
  - destruct W as (_ & b & _ & ->). apply int_of_byte_range.
  - destruct G as (_ & b & _ & _ & ->). apply int_of_byte_range.
  - destruct Z0 as (_ & _ & _ & _ & ->). lia.
Qed.

(** So the cache of every reachable machine is in 0..255, the range the
    statements about [set_channel] and [set_channels] start from. *)
Lemma reachable_cache_u8 (m : Machine Dev) :
  reachable m -> 0 <= state (self m) < 256.
Proof.
  induction 1 as [d|c m _ IH].
  - cbn. lia.
  - apply cache_stays_u8. exact IH.
Qed.

(** C9, amended. Whatever the call, the cache afterwards is the cache
    before, or the payload byte of a set-states write the transport
    accepted in that call, or the byte a read returned in that call, or
    0 after a [connect] whose initial read came back empty.  The new
    value is always a whole byte. *)
Theorem cache_changed_only_by_write_read_or_connect_default
    (c : api_call) (m : Machine Dev) :
  cache_changed_only_by_read_write_connect c m.
Proof. exact (after_frame c m). Qed.

(** A transport failure after the port was opened: the write of the
    get-states command raises. *)
Lemma connect_write_failure (m : Machine Dev) (p : string) (e : exn) (d1 d2 d3 : Dev) :
  Serial_open p BAUDRATE 1 1 (dev (snd (close m))) = (Ok tt, d1) ->
  Serial_reset_input_buffer d1 = (Ok tt, d2) ->
  Serial_write [x5b] d2 = (Raise e, d3) ->
  connect p m =
    (Raise e,
     mkMachine {| _serial := Some {| ser_port := p; is_open := true |};
                  port := Some p; state := state (self m) |}
               d3
               (log (snd (close m)) ++
                [IoOpen p BAUDRATE 1 1 (Ok tt); IoResetInputBuffer (Ok tt);
                 IoWrite [x5b] (Raise e)])).
Proof.
  rewrite close_run. cbn [snd dev log]. intros O R W.
  unfold connect. rewrite bind_eq, close_run.
  rewrite bind_eq. unfold try_except_SerialException. rewrite bind_eq.
  unfold new_Serial. cbn [dev log self]. rewrite O.
  unfold set__serial. rewrite bind_eq. unfold set_port. rewrite bind_eq.
  cbn [dev log self _serial port state].
  unfold get_states. rewrite bind_eq. unfold _send_command.
  rewrite bind_eq. unfold _ensure_connection at 1. rewrite bind_eq.
  cbn [get_self self _serial is_open negb ret].
  rewrite bind_eq. unfold reset_input_buffer. cbn [dev log self]. rewrite R.
  rewrite bind_eq. unfold lift. change GET_STATES_CMD with (int_of_byte x5b).
  rewrite bytes_int_of_byte. rewrite bind_eq. unfold write. cbn [dev log self app].
  rewrite W. rewrite <- !app_assoc. reflexivity.
Qed.

End Proofs.

(** * Scenarios on the simulated board

    Each general statement above, run on the simulated USB-RLY08C. *)

Lemma set_channels_single_write_scenario :
  (int_of_byte x2a = 42 /\
   set_channels [2; 4; 6] true (mkMachine (connected 0) (board x00 false false) []) =
     (Ok 42,
      mkMachine (connected 42) (board x2a false false)
        [IoResetInputBuffer (Ok tt); IoWrite [x5c; x2a] (Ok tt)])) /\
  set_channels [1; 2] false (mkMachine (connected 43) (board x2b false false) []) =
    (Ok 40,
     mkMachine (connected 40) (board x28 false false)
       [IoResetInputBuffer (Ok tt); IoWrite [x5c; x28] (Ok tt)]) /\
  set_channels [2; 4; 6] true (mkMachine (connected 0) (board x00 false false) []) =
    (Ok 42,
     mkMachine (connected 42) (board x2a false false)
       [IoResetInputBuffer (Ok tt); IoWrite [x5c; x2a] (Ok tt)]).
Proof.
  split; [|split].
  - exact (proj1 (@set_channels_single_write SimBoard SimLib)
             (mkMachine (connected 0) (board x00 false false) [])
             [2; 4; 6] true 42 x2a (board x00 false false) (board x2a false false)
             eq_refl ltac:(cbn; lia) ltac:(repeat constructor; lia)
             eq_refl eq_refl eq_refl eq_refl).
  - exact (proj2 (proj1 (@set_channels_single_write SimBoard SimLib)
             (mkMachine (connected 43) (board x2b false false) [])
             [1; 2] false 40 x28 (board x2b false false) (board x28 false false)
             eq_refl ltac:(cbn; lia) ltac:(repeat constructor; lia)
             eq_refl eq_refl eq_refl eq_refl)).
  - exact (proj2 (@set_channels_single_write SimBoard SimLib)
             (mkMachine (connected 0) (board x00 false false) [])
             (board x00 false false) (board x2a false false)
             eq_refl eq_refl eq_refl eq_refl).
Defined.

Lemma set_channel_mask_scenario :
  (int_of_byte x2b = 43 /\
   set_channel 1 true (mkMachine (connected 42) (board x2a false false) []) =
     (Ok 43,
      mkMachine (connected 43) (board x2b false false)
        [IoResetInputBuffer (Ok tt); IoWrite [x5c; x2b] (Ok tt)])) /\
  (int_of_byte x22 = 34 /\
   set_channel 4 false (mkMachine (connected 42) (board x2a false false) []) =
     (Ok 34,
      mkMachine (connected 34) (board x22 false false)
        [IoResetInputBuffer (Ok tt); IoWrite [x5c; x22] (Ok tt)])).
Proof.
  split.
  - exact (set_channel_mask
             (mkMachine (connected 42) (board x2a false false) [])
             1 true 43 x2b (board x2a false false) (board x2b false false)
             eq_refl ltac:(cbn; lia) ltac:(lia) eq_refl eq_refl eq_refl eq_refl).
  - exact (set_channel_mask
             (mkMachine (connected 42) (board x2a false false) [])
             4 false 34 x22 (board x2a false false) (board x22 false false)
             eq_refl ltac:(cbn; lia) ltac:(lia) eq_refl eq_refl eq_refl eq_refl).
Defined.

Lemma set_channel_is_singleton_set_channels_scenario :
  int_of_byte x2e = 46 /\
  set_channel 3 true (mkMachine (connected 42) (board x2a false false) []) =
    (Ok 46,
     mkMachine (connected 46) (board x2e false false)
       [IoResetInputBuffer (Ok tt); IoWrite [x5c; x2e] (Ok tt)]) /\
  set_channels [3] true (mkMachine (connected 42) (board x2a false false) []) =
    (Ok 46,
     mkMachine (connected 46) (board x2e false false)
       [IoResetInputBuffer (Ok tt); IoWrite [x5c; x2e] (Ok tt)]).
Proof.
  exact (proj2 (@set_channel_is_singleton_set_channels SimBoard SimLib)
           (mkMachine (connected 42) (board x2a false false) [])
           3 true 46 x2e (board x2a false false) (board x2e false false)
           eq_refl ltac:(cbn; lia) ltac:(lia) eq_refl eq_refl eq_refl eq_refl).
Defined.

Lemma invalid_channel_rejected_scenario :
  set_channel 0 true (mkMachine (connected 42) (board x2a false false) []) =
    (Raise InvalidChannelError, mkMachine (connected 42) (board x2a false false) []) /\
  set_channel 9 true (mkMachine (connected 42) (board x2a false false) []) =
    (Raise InvalidChannelError, mkMachine (connected 42) (board x2a false false) []) /\
  set_channels [2; 9; 4] true (mkMachine (connected 42) (board x2a false false) []) =
    (Raise InvalidChannelError, mkMachine (connected 42) (board x2a false false) []).
Proof.
  pose (m := mkMachine (connected 42) (board x2a false false) []).
  split; [|split].
  - exact (proj1 (invalid_channel_rejected m true) 0 ltac:(lia)).
  - exact (proj1 (invalid_channel_rejected m true) 9 ltac:(lia)).
  - exact (proj2 (invalid_channel_rejected m true) [2] 9 [4] ltac:(lia)).
Defined.

(** C4 as stated fails: not connected, [set_channel 0 true] raises the
    invalid channel error, not the not-connected error. *)
Lemma disconnected_invalid_channel_is_value_error :
  is_connected (self (mkMachine init (board x00 false false) [])) = false /\
  ~ fails_not_connected (set_channel 0 true) (mkMachine init (board x00 false false) []).
Proof.
  split; [reflexivity|]. unfold fails_not_connected. discriminate.
Qed.

Lemma disconnected_calls_fail_without_io_scenario :
  get_states (mkMachine init (board x00 false false) []) =
    (Raise NotConnectedError, mkMachine init (board x00 false false) []) /\
  set_states 176 (mkMachine init (board x00 false false) []) =
    (Raise NotConnectedError, mkMachine init (board x00 false false) []) /\
  set_channel 3 true (mkMachine init (board x00 false false) []) =
    (Raise NotConnectedError, mkMachine init (board x00 false false) []) /\
  set_channels [2; 4; 6] true (mkMachine init (board x00 false false) []) =
    (Raise NotConnectedError, mkMachine init (board x00 false false) []).
Proof.
  pose (m := mkMachine init (board x00 false false) []).
  pose proof (disconnected_calls_fail_without_io m eq_refl) as (G & S & C & Cs).
  split; [exact G|]. split; [exact (S 176)|].
  split; [exact (C 3 true)|exact (Cs [2; 4; 6] true)].
Defined.

Lemma get_states_response_or_no_data_scenario :
  get_states (mkMachine (connected 0) (board x2a false false) []) =
    (Ok (Some 42),
     mkMachine (connected 42) (board x2a false false)
       [IoResetInputBuffer (Ok tt); IoWrite [x5b] (Ok tt); IoRead 1 (Ok [x2a])]) /\
  get_states (mkMachine (connected 42) (board x00 true false) []) =
    (Ok None,
     mkMachine (connected 42) (board x00 true false)
       [IoResetInputBuffer (Ok tt); IoWrite [x5b] (Ok tt); IoRead 1 (Ok [])]).
Proof.
  split.
  - exact (get_states_response_or_no_data
             (mkMachine (connected 0) (board x2a false false) []) [x2a]
             (board x2a false false)
             (mkSim ["COM3"%string] x2a [x2a] false false)
             (board x2a false false)
             eq_refl eq_refl eq_refl eq_refl).
  - exact (get_states_response_or_no_data
             (mkMachine (connected 42) (board x00 true false) []) []
             (board x00 true false) (board x00 true false) (board x00 true false)
             eq_refl eq_refl eq_refl eq_refl).
Defined.

Lemma set_states_writes_low_byte_scenario :
  set_states 176 (mkMachine (connected 0) (board x00 false false) []) =
    (Ok 176,
     mkMachine (connected 176) (board xb0 false false)
       [IoResetInputBuffer (Ok tt); IoWrite [x5c; xb0] (Ok tt)]) /\
  set_states 944 (mkMachine (connected 0) (board x00 false false) []) =
    (Ok 176,
     mkMachine (connected 176) (board xb0 false false)
       [IoResetInputBuffer (Ok tt); IoWrite [x5c; xb0] (Ok tt)]).
Proof.
  split.
  - exact (set_states_writes_low_byte
             (mkMachine (connected 0) (board x00 false false) []) 176 xb0
             (board x00 false false) (board xb0 false false)
             eq_refl eq_refl eq_refl eq_refl).
  - exact (set_states_writes_low_byte
             (mkMachine (connected 0) (board x00 false false) []) 944 xb0
             (board x00 false false) (board xb0 false false)
             eq_refl eq_refl eq_refl eq_refl).
Defined.

Lemma connect_no_data_defaults_to_off_scenario :
  connect "COM3" (mkMachine (connected 42) (board x2a true false) []) =
    (Ok 0,
     mkMachine (connected 0) (board x2a true false)
       [IoClose; IoOpen "COM3" 19200 1 1 (Ok tt); IoResetInputBuffer (Ok tt);
        IoWrite [x5b] (Ok tt); IoRead 1 (Ok [])]).
Proof.
  exact (connect_no_data_defaults_to_off
           (mkMachine (connected 42) (board x2a true false) []) "COM3"
           (board x2a true false) (board x2a true false)
           (board x2a true false) (board x2a true false)
           eq_refl eq_refl eq_refl eq_refl).
Defined.

(** C8, at the failing input: the port opens, then the write of the
    get-states command times out.  [connect] raises the transport's
    exception but the controller keeps the open handle and reports
    connected. *)
Theorem connect_failure_after_open_keeps_handle :
  connect "COM3" (mkMachine init (board x00 false true) []) =
    (Raise (SerialException "Write timeout"),
     mkMachine (connected 0) (board x00 false true)
       [IoOpen "COM3" 19200 1 1 (Ok tt); IoResetInputBuffer (Ok tt);
        IoWrite [x5b] (Raise (SerialException "Write timeout"))]) /\
  is_connected (connected 0) = true.
Proof. split; reflexivity. Qed.

(** C9 as stated fails: reconnecting to a silent board turns a cache of
    42 into 0 with no write accepted and no byte read. *)
Lemma connect_no_data_resets_cache :
  ~ cache_changed_only_by_read_write
      (Call_connect "COM3") (mkMachine (connected 42) (board x2a true false) []).
Proof.
  intros (evs & L & D). cbn [after] in L, D.
  assert (E : connect "COM3" (mkMachine (connected 42) (board x2a true false) []) =
              (Ok 0,
               mkMachine (connected 0) (board x2a true false)
                 ([IoClose; IoOpen "COM3" 19200 1 1 (Ok tt);
                   IoResetInputBuffer (Ok tt); IoWrite [x5b] (Ok tt)] ++
                  [IoRead 1 (Ok [])])))
    by reflexivity.
  rewrite E in L, D. cbn [snd self state log connected] in L, D.
  change ([] ++ evs) with evs in L. subst evs.
  destruct D as [D | [(pre & b & D & _) | (pre & b & rest & D & _)]].
  - discriminate D.
  - apply app_inj_tail in D. destruct D as [_ D]. discriminate D.
  - apply app_inj_tail in D. destruct D as [_ D]. discriminate D.
Qed.

(** * Further properties of the controller *)

Section MoreProofs.

Context {Dev : Type} `{SerialLib Dev}.

(** ** Every outcome of a command *)

Lemma send_command_cases (m m' : Machine Dev) (c : byte) (payload : list byte)
    (n : Z) (r : result (list byte)) :
  _send_command (int_of_byte c) payload n m = (r, m') ->
  self m' = self m /\
  exists evs,
    log m' = log m ++ evs /\ command_traffic (self m) (c :: payload) n r evs.
Proof.
  unfold _send_command. rewrite bind_eq.
  destruct (is_connected (self m)) eqn:C.
  - destruct (ensure_connection_ok m C) as [ser ->].
    rewrite bind_eq. unfold reset_input_buffer.
    destruct (Serial_reset_input_buffer (dev m)) as [[[]|e] d1].
    2:{ intros [= <- <-]. split; [reflexivity|]. eexists. split; [reflexivity|].
        right. split; [exact C|]. left. exists e. split; reflexivity. }
    rewrite bind_eq. unfold lift. rewrite bytes_int_of_byte.
    rewrite bind_eq. unfold write. cbn [dev self log app].
    destruct (Serial_write (c :: payload) d1) as [[[]|e] d2].
    2:{ intros [= <- <-]. split; [reflexivity|]. cbn [log]. rewrite <- app_assoc.
        eexists. split; [reflexivity|].
        right. split; [exact C|]. right; left. exists e. split; reflexivity. }
    destruct (n =? 0) eqn:N.
    + apply Z.eqb_eq in N. intros [= <- <-]. split; [reflexivity|]. cbn [log].
      rewrite <- app_assoc. eexists. split; [reflexivity|].
      right. split; [exact C|]. right; right; left. repeat split. exact N.
    + apply Z.eqb_neq in N. unfold read. cbn [dev self log].
      destruct (Serial_read n d2) as [r0 d3]. intros [= <- <-].
      split; [reflexivity|]. cbn [log]. rewrite <- !app_assoc.
      eexists. split; [reflexivity|].
      right. split; [exact C|]. right; right; right. split; [exact N|reflexivity].
  - rewrite (ensure_connection_fails m C). intros [= <- <-].
    split; [reflexivity|]. exists []. rewrite app_nil_r. split; [reflexivity|].
    left. repeat split. exact C.
Qed.


Lemma get_states_cases (m m' : Machine Dev) (r : result (option Z)) :
  get_states m = (r, m') ->
  exists r0 evs,
    command_traffic (self m) [x5b] 1 r0 evs /\
    log m' = log m ++ evs /\
    match r0 with
    | Ok (b :: _) =>
        r = Ok (Some (int_of_byte b)) /\
        self m' = {| _serial := _serial (self m); port := port (self m);
                     state := int_of_byte b |}
    | Ok [] => r = Ok None /\ self m' = self m
    | Raise e => r = Raise e /\ self m' = self m
    end.
Proof.
  unfold get_states. rewrite bind_eq. change GET_STATES_CMD with (int_of_byte x5b).
  destruct (_send_command (int_of_byte x5b) [] 1 m) as [r0 m0] eqn:E.
  apply send_command_cases in E. destruct E as [S (evs & L & T)].
  intros E. exists r0, evs. split; [exact T|].
  destruct r0 as [[|b rest]|e]; injection E as <- <-; cbn [log self];
    rewrite ?S; (split; [exact L|]); split; reflexivity.
Qed.

Lemma set_states_cases (m m' : Machine Dev) (v : Z) (r : result Z) :
  set_states v m = (r, m') ->
  exists b r0 evs,
    int_of_byte b = Z.land v 255 /\
    command_traffic (self m) [x5c; b] 0 r0 evs /\
    log m' = log m ++ evs /\
    match r0 with
    | Ok _ =>
        r = Ok (Z.land v 255) /\
        self m' = {| _serial := _serial (self m); port := port (self m);
                     state := Z.land v 255 |}
    | Raise e => r = Raise e /\ self m' = self m
    end.
Proof.
  destruct (low_byte_exists v) as [b B].
  unfold set_states. rewrite bind_eq. unfold lift. rewrite <- B, bytes_int_of_byte.
  rewrite bind_eq. change SET_STATES_CMD with (int_of_byte x5c).
  destruct (_send_command (int_of_byte x5c) [b] 0 m) as [r0 m0] eqn:E.
  apply send_command_cases in E. destruct E as [S (evs & L & T)].
  intros E. exists b, r0, evs. split; [reflexivity|]. split; [exact T|].
  destruct r0 as [bs|e]; injection E as <- <-; cbn [log self];
    rewrite ?S; (split; [exact L|]); split; reflexivity.
Qed.

(** [connect] is [close], then the attempt to open, then, if the port
    opened, [get_states] on the controller holding the new handle. *)
Lemma connect_cases (m m' : Machine Dev) (p : string) (r : result Z) :
  connect p m = (r, m') ->
  (exists e d1,
     Serial_open p BAUDRATE 1 1 (dev (snd (close m))) = (Raise e, d1) /\
     r = Raise e /\
     m' = mkMachine {| _serial := None; port := None; state := state (self m) |}
                    d1
                    (log (snd (close m)) ++ [IoOpen p BAUDRATE 1 1 (Raise e)])) \/
  (exists d1 r1 m1,
     Serial_open p BAUDRATE 1 1 (dev (snd (close m))) = (Ok tt, d1) /\
     get_states
       (mkMachine {| _serial := Some {| ser_port := p; is_open := true |};
                     port := Some p; state := state (self m) |}
                  d1
                  (log (snd (close m)) ++ [IoOpen p BAUDRATE 1 1 (Ok tt)]))
       = (r1, m1) /\
     match r1 with
     | Ok states =>
         r = Ok (match states with Some s => s | None => 0 end) /\
         m' = mkMachine {| _serial := _serial (self m1); port := port (self m1);
                           state := match states with Some s => s | None => 0 end |}
                        (dev m1) (log m1)
     | Raise e => r = Raise e /\ m' = m1
     end).
Proof.
  unfold connect. rewrite bind_eq, close_run. cbn [snd dev log].
  rewrite bind_eq. unfold try_except_SerialException. rewrite bind_eq.
  unfold new_Serial. cbn [dev log self].
  destruct (Serial_open p BAUDRATE 1 1
              (if is_connected (self m) then Serial_close (dev m) else dev m))
    as [[[]|e] d1].
  - unfold set__serial. rewrite bind_eq. unfold set_port. rewrite bind_eq.
    cbn [dev log self _serial port state].
    match goal with
    | |- context [get_states ?x] => destruct (get_states x) as [r1 m1] eqn:G
    end.
    intros E. right. exists d1, r1, m1. split; [reflexivity|]. split; [exact G|].
    destruct r1 as [states|e]; injection E as <- <-; split; reflexivity.
  - intros E. left. exists e, d1. split; [reflexivity|].
    destruct e as [msg|msg]; injection E as <- <-; split; reflexivity.
Qed.


(** ** Closing and connecting *)

(** X1. [close] always returns normally; afterwards the controller holds
    no handle and no port name and its cache is the one before.  The
    transport's close is called exactly when a connection was open, and a
    second [close] changes nothing and calls nothing. *)
Theorem close_disconnects_and_is_idempotent (m : Machine Dev) :
  fst (close m) = Ok tt /\
  self (snd (close m)) = {| _serial := None; port := None; state := state (self m) |} /\
  log (snd (close m)) = (if is_connected (self m) then log m ++ [IoClose] else log m) /\
  close (snd (close m)) = (Ok tt, snd (close m)).
Proof.
  rewrite !close_run. cbn [fst snd self log dev is_connected _serial state].
  repeat split.
Qed.

(** X2. When the port opens and the board answers the initial get-states
    command with a byte, [connect] returns that byte: the controller
    holds the open handle on the port and the cache is the byte. *)
Theorem connect_with_response (m : Machine Dev) (p : string) (b : byte)
    (rest : list byte) (d1 d2 d3 d4 : Dev) :
  Serial_open p BAUDRATE 1 1 (dev (snd (close m))) = (Ok tt, d1) ->
  Serial_reset_input_buffer d1 = (Ok tt, d2) ->
  Serial_write [x5b] d2 = (Ok tt, d3) ->
  Serial_read 1 d3 = (Ok (b :: rest), d4) ->
  connect p m =
    (Ok (int_of_byte b),
     mkMachine {| _serial := Some {| ser_port := p; is_open := true |};
                  port := Some p; state := int_of_byte b |}
               d4
               (log (snd (close m)) ++
                [IoOpen p BAUDRATE 1 1 (Ok tt); IoResetInputBuffer (Ok tt);
                 IoWrite [x5b] (Ok tt); IoRead 1 (Ok (b :: rest))])).
Proof.
  intros O R W Rd.
  destruct (connect p m) as [r m'] eqn:E. apply connect_cases in E.
  destruct E as [(e & d & O' & _) | (d & r1 & m1 & O' & G & T)];
    rewrite O in O'; [discriminate O'|]. injection O' as <-.
  erewrite get_states_run in G; [| reflexivity | exact R | exact W | exact Rd].
  injection G as <- <-. destruct T as [-> ->].
  cbn [self dev log _serial port state]. rewrite <- app_assoc. reflexivity.
Qed.

(** X3. When opening the port raises, whatever the exception, [connect]
    raises the same exception after the one attempt to open; the
    controller is left without handle and port name, with the cache it
    had, and nothing is sent. *)
Theorem connect_open_raises (m : Machine Dev) (p : string) (e : exn) (d1 : Dev) :
  Serial_open p BAUDRATE 1 1 (dev (snd (close m))) = (Raise e, d1) ->
  connect p m =
    (Raise e,
     mkMachine {| _serial := None; port := None; state := state (self m) |}
               d1
               (log (snd (close m)) ++ [IoOpen p BAUDRATE 1 1 (Raise e)])).
Proof.
  intros O.
  destruct (connect p m) as [r m'] eqn:E. apply connect_cases in E.
  destruct E as [(e' & d & O' & -> & ->) | (d & r1 & m1 & O' & _)];
    rewrite O in O'; [|discriminate O'].
  injection O' as <- <-. reflexivity.
Qed.

Lemma connect_outcome_cases (m m' : Machine Dev) (p : string) (r : result Z) :
  connect p m = (r, m') ->
  match r with
  | Ok v =>
      self m' = {| _serial := Some {| ser_port := p; is_open := true |};
                   port := Some p; state := v |} /\
      0 <= v < 256
  | Raise _ =>
      self m' = {| _serial := None; port := None; state := state (self m) |} \/
      self m' = {| _serial := Some {| ser_port := p; is_open := true |};
                   port := Some p; state := state (self m) |}
  end.
Proof.
  intros E. apply connect_cases in E.
  destruct E as [(e & d & _ & -> & ->) | (d & r1 & m1 & _ & G & T)].
  - left. reflexivity.
  - apply get_states_cases in G. destruct G as (r0 & evs & _ & _ & G).
    cbn [self _serial port state] in G.
    destruct r0 as [[|b rest]|e]; destruct G as [-> S]; destruct T as [-> ->];
      cbn [self]; rewrite S; cbn [_serial port state].
    + split; [reflexivity|lia].
    + split; [reflexivity|apply int_of_byte_range].
    + right. reflexivity.
Qed.

(** X4. Every way [connect] can end.  If it returns [v], the controller
    holds the open handle on the port, the cache is [v], and [v] is in
    0..255.  If it raises, the cache is the one before the call and the
    controller either holds nothing or holds the open handle on the port
    (the failure came after the port was opened). *)
Theorem connect_outcome (m : Machine Dev) (p : string) :
  match fst (connect p m) with
  | Ok v =>
      self (snd (connect p m)) =
        {| _serial := Some {| ser_port := p; is_open := true |};
           port := Some p; state := v |} /\
      0 <= v < 256
  | Raise _ =>
      self (snd (connect p m)) =
        {| _serial := None; port := None; state := state (self m) |} \/
      self (snd (connect p m)) =
        {| _serial := Some {| ser_port := p; is_open := true |};
           port := Some p; state := state (self m) |}
  end.
Proof.
  destruct (connect p m) as [r m'] eqn:E. exact (connect_outcome_cases m m' p r E).
Qed.


(** ** What a failure, or a call that is not [connect] or [close], leaves alone *)

Lemma set_states_raise_self (m m' : Machine Dev) (v : Z) (e : exn) :
  set_states v m = (Raise e, m') -> self m' = self m.
Proof.
  intros E. apply set_states_cases in E.
  destruct E as (b & r0 & evs & _ & _ & _ & T).
  destruct r0 as [bs|e0]; destruct T as [T S]; [discriminate T|exact S].
Qed.

Lemma set_states_handle (m : Machine Dev) (v : Z) :
  _serial (self (snd (set_states v m))) = _serial (self m) /\
  port (self (snd (set_states v m))) = port (self m).
Proof.
  destruct (set_states v m) as [r m'] eqn:E. apply set_states_frame in E.
  destruct E as (S & P & _). split; assumption.
Qed.

Lemma raise_leaves_self (m : Machine Dev) :
  (forall e m', get_states m = (Raise e, m') -> self m' = self m) /\
  (forall v e m', set_states v m = (Raise e, m') -> self m' = self m) /\
  (forall c on e m', set_channel c on m = (Raise e, m') -> self m' = self m) /\
  (forall cs on e m', set_channels cs on m = (Raise e, m') -> self m' = self m).
Proof.
  split; [|split; [|split]].
  - intros e m' E. apply get_states_cases in E.
    destruct E as (r0 & evs & _ & _ & T).
    destruct r0 as [[|b rest]|e0]; destruct T as [T S]; (discriminate T || exact S).
  - intros v e m'. apply set_states_raise_self.
  - intros c on e m'. rewrite set_channel_unfold. destruct (valid_channel c).
    + apply set_states_raise_self.
    + intros [= _ <-]. reflexivity.
  - intros cs on e m'. rewrite set_channels_unfold.
    destruct (forallb valid_channel cs).
    + apply set_states_raise_self.
    + intros [= _ <-]. reflexivity.
Qed.

(** X5. A call of [get_states], [set_states], [set_channel] or
    [set_channels] that raises leaves the controller object exactly as
    it was: same handle, same port name, same cache. *)
Theorem failed_call_leaves_controller (m : Machine Dev) :
  (forall e m', get_states m = (Raise e, m') -> self m' = self m) /\
  (forall v e m', set_states v m = (Raise e, m') -> self m' = self m) /\
  (forall c on e m', set_channel c on m = (Raise e, m') -> self m' = self m) /\
  (forall cs on e m', set_channels cs on m = (Raise e, m') -> self m' = self m).
Proof. exact (raise_leaves_self m). Qed.

Lemma keeps_connection_frame (c : api_call) (m : Machine Dev) :
  keeps_connection c = true ->
  _serial (self (after c m)) = _serial (self m) /\
  port (self (after c m)) = port (self m).
Proof.
  destruct c as [| |p| | |v|ch on|chs on]; cbn [keeps_connection after];
    intros K; try discriminate K.
  - split; reflexivity.
  - split; reflexivity.
  - destruct (get_states m) as [r m'] eqn:E. apply get_states_frame in E.
    destruct E as (S & P & _). split; assumption.
  - apply set_states_handle.
  - rewrite set_channel_unfold. destruct (valid_channel ch).
    + apply set_states_handle.
    + split; reflexivity.
  - rewrite set_channels_unfold. destruct (forallb valid_channel chs).
    + apply set_states_handle.
    + split; reflexivity.
Qed.

(** X6. Only [connect] and [close] change the connection: after any
    other call, whether it returned or raised, the controller holds the
    same handle and port name, and [is_connected] answers as before. *)
Theorem only_connect_and_close_change_the_connection (c : api_call) (m : Machine Dev) :
  keeps_connection c = true ->
  _serial (self (after c m)) = _serial (self m) /\
  port (self (after c m)) = port (self m) /\
  is_connected (self (after c m)) = is_connected (self m).
Proof.
  intros K. destruct (keeps_connection_frame c m K) as [S P].
  split; [exact S|]. split; [exact P|]. unfold is_connected. rewrite S. reflexivity.
Qed.

(** ** Invariants of every reachable machine *)

Lemma after_handle_coherent (c : api_call) (m : Machine Dev) :
  handle_coherent (self m) -> handle_coherent (self (after c m)).
Proof.
  intros I. destruct (keeps_connection c) eqn:K.
  - destruct (keeps_connection_frame c m K) as [S P].
    unfold handle_coherent. rewrite S, P. exact I.
  - destruct c; try discriminate K; cbn [after].
    + destruct (connect p m) as [r m'] eqn:E. apply connect_outcome_cases in E.
      cbn [snd]. destruct r as [v|e].
      * destruct E as [-> _]. right. exists p. split; reflexivity.
      * destruct E as [-> | ->]; [left|right; exists p]; split; reflexivity.
    + rewrite close_run. left. split; reflexivity.
Qed.

Lemma reachable_handle_coherent (m : Machine Dev) :
  reachable m -> handle_coherent (self m).
Proof.
  induction 1 as [d|c m _ IH].
  - left. split; reflexivity.
  - apply after_handle_coherent. exact IH.
Qed.

(** X7. In every machine a program can reach, the controller holds
    either nothing or an open handle together with the name of its port;
    it never keeps a closed handle, so [is_connected] is true exactly
    when a handle is held. *)
Theorem reachable_handle_is_open_on_its_port (m : Machine Dev) :
  reachable m ->
  handle_coherent (self m) /\
  (is_connected (self m) = true <-> _serial (self m) <> None).
Proof.
  intros R. pose proof (reachable_handle_coherent m R) as I. split; [exact I|].
  unfold is_connected.
  destruct I as [[-> _] | (p & -> & _)]; cbn; split; congruence.
Qed.


Lemma port_usage_app (held : bool) (l1 l2 : list io_event) :
  port_usage held (l1 ++ l2) =
    match port_usage held l1 with
    | Some held' => port_usage held' l2
    | None => None
    end.
Proof.
  revert held. induction l1 as [|ev l1 IH]; intros held; [reflexivity|].
  destruct ev as [q bd t w r| |r|data r|n r]; cbn [app port_usage];
    destruct held; try reflexivity; apply IH.
Qed.

Lemma disciplined_app (prev : option io_event) (l1 l2 : list io_event) :
  disciplined prev l1 = true ->
  (forall q, disciplined q l2 = true) ->
  disciplined prev (l1 ++ l2) = true.
Proof.
  intros D1 D2. revert prev D1. induction l1 as [|ev l1 IH]; intros prev D1.
  - apply D2.
  - cbn [app disciplined] in *. apply andb_true_iff in D1. destruct D1 as [F D1].
    rewrite F. apply IH. exact D1.
Qed.

Lemma traffic_port_usage (c : RelayBoardController) (data : list byte) (n : Z)
    (r : result (list byte)) (evs : list io_event) :
  command_traffic c data n r evs ->
  port_usage (is_connected c) evs = Some (is_connected c).
Proof.
  intros [(-> & _ & ->) | (-> & [(e & _ & ->) | [(e & _ & ->) | [(_ & _ & ->) | (_ & ->)]]])];
    reflexivity.
Qed.

Lemma traffic_disciplined (c : RelayBoardController) (data : list byte) (n : Z)
    (r : result (list byte)) (evs : list io_event) :
  command_traffic c data n r evs -> forall q, disciplined q evs = true.
Proof.
  intros [(_ & _ & ->) | (_ & [(e & _ & ->) | [(e & _ & ->) | [(_ & _ & ->) | (_ & ->)]]])] q;
    reflexivity.
Qed.

Lemma orderly_nil (held : bool) : orderly held held [].
Proof. split; [reflexivity|]. intros q. reflexivity. Qed.


Lemma orderly_app (h1 h2 h3 : bool) (l1 l2 : list io_event) :
  orderly h1 h2 l1 -> orderly h2 h3 l2 -> orderly h1 h3 (l1 ++ l2).
Proof.
  intros [P1 D1] [P2 D2]. split.
  - rewrite port_usage_app, P1. exact P2.
  - intros q. apply disciplined_app; [apply D1|exact D2].
Qed.

Lemma traffic_orderly (c : RelayBoardController) (data : list byte) (n : Z)
    (r : result (list byte)) (evs : list io_event) :
  command_traffic c data n r evs -> orderly (is_connected c) (is_connected c) evs.
Proof.
  intros T. split; [exact (traffic_port_usage _ _ _ _ _ T)|].
  exact (traffic_disciplined _ _ _ _ _ T).
Qed.

Lemma close_orderly (m : Machine Dev) :
  exists evs,
    log (snd (close m)) = log m ++ evs /\ orderly (is_connected (self m)) false evs.
Proof.
  rewrite close_run. cbn [snd log]. destruct (is_connected (self m)).
  - exists [IoClose]. split; [reflexivity|]. split; [reflexivity|]. intros q; reflexivity.
  - exists []. rewrite app_nil_r. split; [reflexivity|apply orderly_nil].
Qed.

Lemma set_states_orderly (m : Machine Dev) (v : Z) :
  exists evs,
    log (snd (set_states v m)) = log m ++ evs /\
    orderly (is_connected (self m)) (is_connected (self (snd (set_states v m)))) evs.
Proof.
  pose proof (set_states_handle m v) as [S _].
  destruct (set_states v m) as [r m'] eqn:E. apply set_states_cases in E.
  destruct E as (b & r0 & evs & _ & T & L & _). cbn [snd] in *.
  exists evs. split; [exact L|]. unfold is_connected at 2. rewrite S.
  exact (traffic_orderly _ _ _ _ _ T).
Qed.

Lemma get_states_orderly (m m' : Machine Dev) (r : result (option Z)) :
  get_states m = (r, m') ->
  exists evs,
    log m' = log m ++ evs /\
    orderly (is_connected (self m)) (is_connected (self m')) evs.
Proof.
  intros E. pose proof (get_states_frame m m' r E) as (S & _).
  apply get_states_cases in E. destruct E as (r0 & evs & T & L & _).
  exists evs. split; [exact L|]. unfold is_connected at 2. rewrite S.
  exact (traffic_orderly _ _ _ _ _ T).
Qed.

Lemma connect_orderly (m : Machine Dev) (p : string) :
  exists evs,
    log (snd (connect p m)) = log m ++ evs /\
    orderly (is_connected (self m)) (is_connected (self (snd (connect p m)))) evs.
Proof.
  destruct (close_orderly m) as (evs0 & L0 & O0).
  destruct (connect p m) as [r m'] eqn:E. apply connect_cases in E. cbn [snd].
  destruct E as [(e & d & _ & _ & ->) | (d & r1 & m1 & _ & G & T)].
  - exists (evs0 ++ [IoOpen p BAUDRATE 1 1 (Raise e)]). cbn [log self].
    rewrite L0, app_assoc. split; [reflexivity|].
    apply (orderly_app _ false); [exact O0|].
    split; [reflexivity|]. intros q; reflexivity.
  - apply get_states_orderly in G. destruct G as (evs & L & O).
    cbn [self log] in L, O. change (is_connected _) with true in O at 1.
    exists (evs0 ++ [IoOpen p BAUDRATE 1 1 (Ok tt)] ++ evs).
    assert (C : is_connected (self m') = is_connected (self m1)).
    { destruct r1 as [states|e]; destruct T as [_ ->]; reflexivity. }
    assert (Lm : log m' = log m1).
    { destruct r1 as [states|e]; destruct T as [_ ->]; reflexivity. }
    rewrite C, Lm, L, L0, <- !app_assoc. split; [reflexivity|].
    apply (orderly_app _ false); [exact O0|].
    apply (orderly_app _ true); [|exact O].
    split; [reflexivity|]. intros q; reflexivity.
Qed.

Lemma after_orderly (c : api_call) (m : Machine Dev) :
  exists evs,
    log (after c m) = log m ++ evs /\
    orderly (is_connected (self m)) (is_connected (self (after c m))) evs.
Proof.
  destruct c as [| |p| | |v|ch on|chs on]; cbn [after].
  - exists []. rewrite app_nil_r. split; [reflexivity|apply orderly_nil].
  - exists []. rewrite app_nil_r. split; [reflexivity|apply orderly_nil].
  - apply connect_orderly.
  - destruct (close_orderly m) as (evs & L & O). exists evs. split; [exact L|].
    rewrite close_run. exact O.
  - destruct (get_states m) as [r m'] eqn:E. exact (get_states_orderly m m' r E).
  - apply set_states_orderly.
  - rewrite set_channel_unfold. destruct (valid_channel ch).
    + apply set_states_orderly.
    + exists []. rewrite app_nil_r. split; [reflexivity|apply orderly_nil].
  - rewrite set_channels_unfold. destruct (forallb valid_channel chs).
    + apply set_states_orderly.
    + exists []. rewrite app_nil_r. split; [reflexivity|apply orderly_nil].
Qed.

Lemma reachable_orderly (m : Machine Dev) :
  reachable m -> orderly false (is_connected (self m)) (log m).
Proof.
  induction 1 as [d|c m _ IH].
  - apply orderly_nil.
  - destruct (after_orderly c m) as (evs & -> & O).
    exact (orderly_app _ _ _ _ _ IH O).
Qed.

(** X8. In every machine a program can reach, the record of transport
    calls respects the ownership of the port: a port is opened only
    while none is held, closing, flushing, writing and reading happen
    only while one is held, and a port is held at the end exactly when
    [is_connected] is true. *)
Theorem reachable_log_respects_port_ownership (m : Machine Dev) :
  reachable m -> port_usage false (log m) = Some (is_connected (self m)).
Proof. intros R. exact (proj1 (reachable_orderly m R)). Qed.

(** X9. In every machine a program can reach, each write in the record
    of transport calls comes right after a flush of the input buffer
    that succeeded, and each read right after a write that was
    accepted. *)
Theorem reachable_log_flushes_before_write (m : Machine Dev) :
  reachable m -> disciplined None (log m) = true.
Proof. intros R. exact (proj2 (reachable_orderly m R) None). Qed.


(** ** Channels as bits *)

Lemma apply_channel_testbit (on : bool) (s c i : Z) :
  1 <= c -> 0 <= i ->
  Z.testbit (apply_channel on s c) i = if i =? c - 1 then on else Z.testbit s i.
Proof.
  intros Hc Hi. unfold apply_channel.
  assert (B : Z.testbit (Z.shiftl 1 (c - 1)) i = (i =? c - 1)).
  { rewrite Z.shiftl_1_l, Z.pow2_bits_eqb by lia. apply Z.eqb_sym. }
  destruct on.
  - rewrite Z.lor_spec, B. destruct (i =? c - 1); [apply orb_true_r|apply orb_false_r].
  - rewrite Z.land_spec, Z.lnot_spec, B by exact Hi.
    destruct (i =? c - 1); [apply andb_false_r|apply andb_true_r].
Qed.

Lemma fold_channels_testbit (on : bool) (channels : list Z) (s i : Z) :
  Forall (fun c => 1 <= c) channels -> 0 <= i ->
  Z.testbit (fold_channels on channels s) i =
    if existsb (Z.eqb (i + 1)) channels then on else Z.testbit s i.
Proof.
  intros Hv Hi. revert s. induction Hv as [|c rest Hc _ IH]; intros s.
  - reflexivity.
  - rewrite fold_channels_cons, IH. cbn [existsb].
    rewrite apply_channel_testbit by assumption.
    replace (i + 1 =? c) with (i =? c - 1)
      by (destruct (Z.eqb_spec i (c - 1)), (Z.eqb_spec (i + 1) c); (reflexivity || lia)).
    destruct (existsb (Z.eqb (i + 1)) rest), (i =? c - 1); reflexivity.
Qed.

Lemma forallb_valid_lower (channels : list Z) :
  forallb valid_channel channels = true -> Forall (fun c => 1 <= c) channels.
Proof.
  rewrite forallb_forall, Forall_forall. intros V c Hin.
  apply V, valid_channel_iff in Hin. lia.
Qed.

Lemma set_states_ok_cache (m m' : Machine Dev) (v s : Z) :
  set_states v m = (Ok s, m') -> s = Z.land v 255 /\ state (self m') = s.
Proof.
  intros E. apply set_states_frame in E. destruct E as (_ & _ & evs & _ & S & -> & _).
  split; [reflexivity|exact S].
Qed.

Lemma set_channels_ok_cache (m m' : Machine Dev) (channels : list Z) (on : bool) (v : Z) :
  0 <= state (self m) < 256 ->
  set_channels channels on m = (Ok v, m') ->
  state (self m') = v /\
  v = fold_channels on channels (state (self m)) /\
  forallb valid_channel channels = true.
Proof.
  intros Hs. rewrite set_channels_unfold.
  destruct (forallb valid_channel channels) eqn:V; [|discriminate].
  intros E. apply set_states_ok_cache in E. destruct E as [-> S].
  split; [exact S|]. split; [|reflexivity].
  apply u8_land, fold_channels_u8; [exact Hs|].
  rewrite forallb_forall in V. apply Forall_forall. intros c Hin.
  apply valid_channel_iff, V, Hin.
Qed.

(** X10. When [set_channels channels on] returns [v] on a cache in
    0..255, [v] is the new cache and, bit by bit, bit [i] of [v] is [on]
    if channel [i+1] is listed and the old bit [i] otherwise: the listed
    relays are switched and no other. *)
Theorem set_channels_changes_exactly_the_listed_bits
    (m m' : Machine Dev) (channels : list Z) (on : bool) (v : Z) :
  0 <= state (self m) < 256 ->
  set_channels channels on m = (Ok v, m') ->
  state (self m') = v /\
  forall i, 0 <= i ->
    Z.testbit v i =
      if existsb (Z.eqb (i + 1)) channels then on else Z.testbit (state (self m)) i.
Proof.
  intros Hs E. apply set_channels_ok_cache in E; [|exact Hs].
  destruct E as (S & -> & V). split; [exact S|].
  intros i Hi. apply fold_channels_testbit; [apply forallb_valid_lower, V|exact Hi].
Qed.

(** X11. When [set_channel c on] returns [v] on a cache in 0..255, [v]
    is the new cache, bit [c-1] of [v] is [on] and every other bit is
    the old one. *)
Theorem set_channel_changes_exactly_one_bit
    (m m' : Machine Dev) (c : Z) (on : bool) (v : Z) :
  0 <= state (self m) < 256 ->
  set_channel c on m = (Ok v, m') ->
  state (self m') = v /\
  forall i, 0 <= i ->
    Z.testbit v i = if i =? c - 1 then on else Z.testbit (state (self m)) i.
Proof.
  intros Hs. rewrite set_channel_unfold.
  destruct (valid_channel c) eqn:V; [|discriminate].
  apply valid_channel_iff in V.
  intros E. apply set_states_ok_cache in E. destruct E as [-> S].
  split; [exact S|]. intros i Hi.
  replace (Z.land (apply_channel on (state (self m)) c) 255)
    with (apply_channel on (state (self m)) c)
    by (symmetry; apply u8_land, apply_channel_u8; assumption).
  apply apply_channel_testbit; lia.
Qed.

Lemma same_members_existsb (cs cs' : list Z) (x : Z) :
  (forall c, In c cs <-> In c cs') ->
  existsb (Z.eqb x) cs = existsb (Z.eqb x) cs'.
Proof.
  intros Hm. apply eq_true_iff_eq. rewrite !existsb_exists. split.
  - intros (c & Hin & Hc). exists c. split; [apply Hm, Hin|exact Hc].
  - intros (c & Hin & Hc). exists c. split; [apply Hm, Hin|exact Hc].
Qed.

Lemma same_members_forallb (cs cs' : list Z) :
  (forall c, In c cs <-> In c cs') ->
  forallb valid_channel cs = forallb valid_channel cs'.
Proof.
  intros Hm. apply eq_true_iff_eq. rewrite !forallb_forall. split.
  - intros V c Hin. apply V, Hm, Hin.
  - intros V c Hin. apply V, Hm, Hin.
Qed.

(** X12. [set_channels] depends only on which channels are listed, not
    on their order nor on repeats: two lists with the same members give
    the same result and leave the same machine. *)
Theorem set_channels_ignores_order_and_repeats
    (m : Machine Dev) (cs cs' : list Z) (on : bool) :
  (forall c, In c cs <-> In c cs') ->
  set_channels cs on m = set_channels cs' on m.
Proof.
  intros Hm. rewrite !set_channels_unfold, <- (same_members_forallb cs cs' Hm).
  destruct (forallb valid_channel cs) eqn:V; [|reflexivity].
  f_equal. apply Z.bits_inj'. intros i Hi.
  rewrite !fold_channels_testbit, (same_members_existsb cs cs' (i + 1) Hm);
    try exact Hi; [reflexivity| |].
  - apply forallb_valid_lower. rewrite <- (same_members_forallb cs cs' Hm). exact V.
  - apply forallb_valid_lower, V.
Qed.

(** X13. [set_channel] is idempotent: if [set_channel c on] returned
    [v], a second [set_channel c on] that returns gives [v] again and
    leaves the cache as it was. *)
Theorem set_channel_twice_writes_the_same_mask
    (m m1 m2 : Machine Dev) (c : Z) (on : bool) (v v2 : Z) :
  0 <= state (self m) < 256 ->
  set_channel c on m = (Ok v, m1) ->
  set_channel c on m1 = (Ok v2, m2) ->
  v2 = v /\ state (self m2) = state (self m1).
Proof.
  intros Hs. rewrite !set_channel_unfold.
  destruct (valid_channel c) eqn:V; [|discriminate].
  apply valid_channel_iff in V.
  intros E1 E2. apply set_states_ok_cache in E1, E2.
  destruct E1 as [-> S1], E2 as [-> S2]. rewrite S1 in *.
  assert (I : Z.land (apply_channel on (Z.land (apply_channel on (state (self m)) c) 255) c) 255
              = Z.land (apply_channel on (state (self m)) c) 255).
  { pose proof (apply_channel_u8 on _ c Hs V) as R1. apply u8_land in R1. rewrite R1.
    pose proof (apply_channel_u8 on _ c (proj2 (u8_land _) R1) V) as R2.
    apply u8_land in R2. rewrite R2.
    apply Z.bits_inj'. intros i Hi.
    rewrite !apply_channel_testbit by lia. destruct (i =? c - 1); reflexivity. }
  split; [exact I|]. rewrite S2. exact I.
Qed.

End MoreProofs.

(** * Properties of the window *)

(** ** Showing a mask *)

Lemma bit_on_testbit (st : Z) (idx : nat) :
  negb (Z.land st (Z.shiftl 1 (Z.of_nat idx)) =? 0) = Z.testbit st (Z.of_nat idx).
Proof.
  rewrite Z.shiftl_1_l.
  destruct (Z.testbit st (Z.of_nat idx)) eqn:B.
  - apply negb_true_iff, Z.eqb_neq. intros E.
    assert (T : Z.testbit (Z.land st (2 ^ Z.of_nat idx)) (Z.of_nat idx) = true).
    { rewrite Z.land_spec, B, Z.pow2_bits_true by lia. reflexivity. }
    rewrite E, Z.bits_0 in T. discriminate T.
  - apply negb_false_iff, Z.eqb_eq, Z.bits_inj'. intros i Hi.
    rewrite Z.land_spec, Z.bits_0, Z.pow2_bits_eqb by lia.
    destruct (Z.eqb_spec (Z.of_nat idx) i) as [<-|_];
      [rewrite B; reflexivity|apply andb_false_r].
Qed.

Lemma length_8 {A : Type} (l : list A) :
  List.length l = 8%nat ->
  exists x0 x1 x2 x3 x4 x5 x6 x7, l = [x0; x1; x2; x3; x4; x5; x6; x7].
Proof.
  intros L.
  do 8 (destruct l as [|? l]; [discriminate L|]).
  destruct l; [|discriminate L]. repeat eexists.
Qed.

Lemma apply_state_raw (st : Z) (a : RelayBoardApp) :
  List.length (state_vars a) = 8%nat ->
  List.length (toggle_buttons a) = 8%nat ->
  _apply_state_to_ui st a =
    (None,
     set_toggle_buttons
       (set_state_vars a
          (map (fun idx => negb (Z.land st (Z.shiftl 1 (Z.of_nat idx)) =? 0)) (seq 0 8)))
       (map (fun ib =>
               configure_text (snd ib)
                 (relay_label (fst ib)
                    (negb (Z.land st (Z.shiftl 1 (Z.of_nat (fst ib))) =? 0))))
            (combine (seq 0 8) (toggle_buttons a)))).
Proof.
  intros Ls Lb.
  destruct a as [pv sv av stv tb pcv cb bb dl ds]. cbn [state_vars toggle_buttons] in *.
  destruct (length_8 stv Ls) as (v0 & v1 & v2 & v3 & v4 & v5 & v6 & v7 & ->).
  destruct (length_8 tb Lb) as (b0 & b1 & b2 & b3 & b4 & b5 & b6 & b7 & ->).
  reflexivity.
Qed.

(** What [_apply_state_to_ui] writes, on a window with its eight
    indicators and eight relay buttons. *)
Lemma apply_state_run (st : Z) (a : RelayBoardApp) :
  List.length (state_vars a) = 8%nat ->
  List.length (toggle_buttons a) = 8%nat ->
  _apply_state_to_ui st a =
    (None,
     set_toggle_buttons
       (set_state_vars a (map (fun idx => Z.testbit st (Z.of_nat idx)) (seq 0 8)))
       (map (fun ib => configure_text (snd ib)
                         (relay_label (fst ib) (Z.testbit st (Z.of_nat (fst ib)))))
            (combine (seq 0 8) (toggle_buttons a)))).
Proof.
  intros Ls Lb. rewrite (apply_state_raw st a Ls Lb). f_equal. f_equal.
  - f_equal. apply map_ext. intros idx. apply bit_on_testbit.
  - apply map_ext. intros ib. rewrite bit_on_testbit. reflexivity.
Qed.

Lemma apply_state_result (st : Z) (a : RelayBoardApp) :
  well_built a ->
  fst (_apply_state_to_ui st a) = None /\
  shows (snd (_apply_state_to_ui st a)) st /\
  well_built (snd (_apply_state_to_ui st a)) /\
  map btn_state (toggle_buttons (snd (_apply_state_to_ui st a))) =
    map btn_state (toggle_buttons a) /\
  set_toggle_buttons (set_state_vars (snd (_apply_state_to_ui st a)) (state_vars a))
                     (toggle_buttons a) = a.
Proof.
  intros (Ls & Lb & La). rewrite (apply_state_run st a Ls Lb).
  destruct a as [pv sv av stv tb pcv cb bb dl ds]. cbn [state_vars toggle_buttons] in *.
  destruct (length_8 tb Lb) as (b0 & b1 & b2 & b3 & b4 & b5 & b6 & b7 & ->).
  cbn. repeat split. exact La.
Qed.

Lemma shows_unique (a : RelayBoardApp) (s s' : Z) :
  0 <= s < 256 -> 0 <= s' < 256 -> shows a s -> shows a s' -> s = s'.
Proof.
  intros Hs Hs' [E _] [E' _]. rewrite E in E'.
  pose proof (proj1 map_ext_in_iff E') as B.
  apply u8_land in Hs, Hs'. rewrite <- Hs, <- Hs'.
  apply Z.bits_inj'. intros i Hi. rewrite !Z.land_spec.
  change 255 with (Z.ones 8).
  destruct (Z.ltb_spec i 8) as [Lt|Ge].
  - specialize (B (Z.to_nat i)). cbv beta in B. rewrite Z2Nat.id in B by exact Hi.
    rewrite B; [reflexivity|]. apply in_seq. lia.
  - rewrite Z.ones_spec_high by lia. rewrite !andb_false_r. reflexivity.
Qed.

Section AppProofs.

Context {Dev : Type} `{SerialLib Dev}.

(** ** The window follows the cache *)

(** What the session invariant says of a window [a] on a machine [m]. *)
Lemma inv_apply (st : Z) (a : RelayBoardApp) (m : Machine Dev) :
  well_built a -> state (self m) = st ->
  well_built (snd (_apply_state_to_ui st a)) /\
  shows (snd (_apply_state_to_ui st a)) (state (self m)).
Proof.
  intros W <-. destruct (apply_state_result (state (self m)) a W) as (_ & S & W' & _).
  split; assumption.
Qed.

Lemma inv_same_indicators (a a' : RelayBoardApp) (s : Z) :
  state_vars a' = state_vars a ->
  map btn_text (toggle_buttons a') = map btn_text (toggle_buttons a) ->
  List.length (active_vars a') = List.length (active_vars a) ->
  well_built a /\ shows a s -> well_built a' /\ shows a' s.
Proof.
  intros Es Eb Ea [(Ls & Lb & La) [S1 S2]]. split.
  - split; [rewrite Es; exact Ls|]. split; [|rewrite Ea; exact La].
    rewrite <- (length_map btn_text), Eb, length_map. exact Lb.
  - split; [rewrite Es; exact S1|rewrite Eb; exact S2].
Qed.

Lemma set_controls_texts (enabled : bool) (a : RelayBoardApp) :
  map btn_text (toggle_buttons (_set_controls_enabled enabled a)) =
    map btn_text (toggle_buttons a).
Proof.
  unfold _set_controls_enabled. cbn [toggle_buttons set_bulk_buttons set_toggle_buttons].
  rewrite map_map. reflexivity.
Qed.

Lemma get_states_ok_cache (m m' : Machine Dev) (o : option Z) :
  get_states m = (Ok o, m') ->
  state (self m') = match o with Some st => st | None => state (self m) end.
Proof.
  intros E. apply get_states_frame in E. destruct E as (_ & _ & evs & _ & T).
  destruct o as [st|]; apply T.
Qed.

Lemma set_channel_ok_cache (m m' : Machine Dev) (c : Z) (on : bool) (st : Z) :
  set_channel c on m = (Ok st, m') -> state (self m') = st.
Proof.
  rewrite set_channel_unfold. destruct (valid_channel c); [|discriminate].
  intros E. apply set_states_ok_cache in E. apply E.
Qed.

Lemma set_channels_ok_state (m m' : Machine Dev) (cs : list Z) (on : bool) (st : Z) :
  set_channels cs on m = (Ok st, m') -> state (self m') = st.
Proof.
  rewrite set_channels_unfold. destruct (forallb valid_channel cs); [|discriminate].
  intros E. apply set_states_ok_cache in E. apply E.
Qed.

Lemma handle_keeps_invariant (ev : gui_event) (a : RelayBoardApp) (m : Machine Dev) :
  well_built a /\ shows a (state (self m)) ->
  well_built (snd (fst (handle ev a m))) /\
  shows (snd (fst (handle ev a m))) (state (self (snd (handle ev a m)))).
Proof.
  intros I. pose proof I as [W S].
  destruct ev as [| |idx|on| | |idx v|p]; cbn [handle].
  - (* refresh_ports *)
    unfold refresh_ports, available_ports. cbn [fst snd].
    revert I. apply inv_same_indicators; destruct (comports (dev m));
      try destruct (negb _); reflexivity.
  - (* toggle_connection *)
    unfold toggle_connection. destruct (is_connected (self m)).
    + rewrite close_run. cbn [fst snd self state].
      revert I. apply inv_same_indicators; [reflexivity| |reflexivity].
      rewrite set_controls_texts. reflexivity.
    + destruct (String.eqb (port_var a) ""); [exact I|].
      destruct (connect (port_var a) m) as [r m1] eqn:E.
      pose proof (connect_outcome_cases m m1 (port_var a) r E) as O.
      destruct r as [st|[exc|msg]].
      * destruct O as [O _].
        destruct (_apply_state_to_ui st _) as [r a4] eqn:A. cbn [fst snd].
        change a4 with (snd (r, a4)). rewrite <- A.
        apply inv_apply; [|rewrite O; reflexivity].
        revert I. intros I.
        refine (proj1 (inv_same_indicators a _ (state (self m)) _ _ _ I));
          [reflexivity| |reflexivity].
        rewrite set_controls_texts. reflexivity.
      * cbn [fst snd].
        replace (state (self m1)) with (state (self m))
          by (destruct O as [-> | ->]; reflexivity).
        revert I. apply inv_same_indicators; reflexivity.
      * cbn [fst snd].
        replace (state (self m1)) with (state (self m))
          by (destruct O as [-> | ->]; reflexivity).
        exact I.
  - (* toggle_relay *)
    unfold toggle_relay. destruct (negb (is_connected (self m))); [exact I|].
    destruct (py_index (state_vars a) (Z.of_nat idx + 1 - 1)) as [shown|]; [|exact I].
    destruct (set_channel (Z.of_nat idx + 1) (negb shown) m) as [r m1] eqn:E.
    destruct r as [st|e].
    + apply set_channel_ok_cache in E.
      destruct (_apply_state_to_ui st a) as [r a1] eqn:A. cbn [fst snd].
      change a1 with (snd (r, a1)). rewrite <- A. apply inv_apply; assumption.
    + apply (proj1 (proj2 (proj2 (raise_leaves_self m)))) in E.
      destruct e as [exc|msg]; cbn [fst snd]; rewrite E; [|exact I].
      revert I. apply inv_same_indicators; reflexivity.
  - (* set_selected *)
    unfold set_selected. destruct (negb (is_connected (self m))); [exact I|].
    destruct (selected_channels 0 (active_vars a)) as [|c0 cs]; [exact I|].
    destruct (set_channels (c0 :: cs) on m) as [r m1] eqn:E.
    destruct r as [st|e].
    + apply set_channels_ok_state in E.
      destruct (_apply_state_to_ui st a) as [r a1] eqn:A. cbn [fst snd].
      change a1 with (snd (r, a1)). rewrite <- A. apply inv_apply; assumption.
    + apply (proj2 (proj2 (proj2 (raise_leaves_self m)))) in E.
      destruct e as [exc|msg]; cbn [fst snd]; rewrite E; [|exact I].
      revert I. apply inv_same_indicators; reflexivity.
  - (* refresh_states *)
    unfold refresh_states. destruct (negb (is_connected (self m))); [exact I|].
    destruct (get_states m) as [r m1] eqn:E.
    destruct r as [[st|]|e].
    + apply get_states_ok_cache in E.
      destruct (_apply_state_to_ui st a) as [r a1] eqn:A. cbn [fst snd].
      change a1 with (snd (r, a1)). rewrite <- A. apply inv_apply; assumption.
    + apply get_states_ok_cache in E. cbn [fst snd]. rewrite E.
      revert I. apply inv_same_indicators; reflexivity.
    + apply (proj1 (raise_leaves_self m)) in E.
      destruct e as [exc|msg]; cbn [fst snd]; rewrite E; [|exact I].
      revert I. apply inv_same_indicators; reflexivity.
  - (* on_close *)
    unfold on_close. rewrite close_run. cbn [fst snd self state]. exact I.
  - (* a checkbox *)
    cbn [fst snd]. destruct (update_at (active_vars a) idx (fun _ => v)) as [vars|] eqn:U;
      [|exact I].
    revert I. apply inv_same_indicators; [reflexivity|reflexivity|].
    cbn [active_vars set_active_vars]. revert idx vars U.
    generalize (active_vars a) as l. induction l as [|x l IH]; intros [|idx] vars U;
      cbn [update_at] in U; try discriminate U.
    + injection U as <-. reflexivity.
    + destruct (update_at l idx (fun _ => v)) as [l'|] eqn:U'; [|discriminate U].
      injection U as <-. cbn [List.length]. f_equal. exact (IH idx l' U').
  - (* the port list *)
    exact I.
Qed.


Lemma handle_machine (ev : gui_event) (a : RelayBoardApp) (m : Machine Dev) :
  snd (handle ev a m) = m \/ exists c, snd (handle ev a m) = after c m.
Proof.
  destruct ev as [| |idx|on| | |idx v|p]; cbn [handle].
  - left. reflexivity.
  - unfold toggle_connection. destruct (is_connected (self m)).
    + right. exists Call_close. cbn [after]. destruct (close m) as [[u|e] m1]; reflexivity.
    + destruct (String.eqb (port_var a) ""); [left; reflexivity|].
      right. exists (Call_connect (port_var a)). cbn [after].
      destruct (connect (port_var a) m) as [[st|[exc|msg]] m1]; try reflexivity.
      destruct (_apply_state_to_ui st _); reflexivity.
  - unfold toggle_relay. destruct (negb (is_connected (self m))); [left; reflexivity|].
    destruct (py_index (state_vars a) (Z.of_nat idx + 1 - 1)) as [shown|];
      [|left; reflexivity].
    right. exists (Call_set_channel (Z.of_nat idx + 1) (negb shown)). cbn [after].
    destruct (set_channel (Z.of_nat idx + 1) (negb shown) m) as [[st|[exc|msg]] m1];
      try reflexivity.
    destruct (_apply_state_to_ui st a); reflexivity.
  - unfold set_selected. destruct (negb (is_connected (self m))); [left; reflexivity|].
    destruct (selected_channels 0 (active_vars a)) as [|c0 cs]; [left; reflexivity|].
    right. exists (Call_set_channels (c0 :: cs) on). cbn [after].
    destruct (set_channels (c0 :: cs) on m) as [[st|[exc|msg]] m1]; try reflexivity.
    destruct (_apply_state_to_ui st a); reflexivity.
  - unfold refresh_states. destruct (negb (is_connected (self m))); [left; reflexivity|].
    right. exists Call_get_states. cbn [after].
    destruct (get_states m) as [[[st|]|[exc|msg]] m1]; try reflexivity.
    destruct (_apply_state_to_ui st a); reflexivity.
  - right. exists Call_close. unfold on_close. cbn [after].
    destruct (close m) as [[u|e] m1]; reflexivity.
  - left. reflexivity.
  - left. reflexivity.
Qed.

Lemma session_reachable (a : RelayBoardApp) (m : Machine Dev) :
  session a m -> reachable m.
Proof.
  induction 1 as [d|ev a m _ IH _].
  - apply reachable_init.
  - destruct (handle_machine ev a m) as [-> | [c ->]]; [exact IH|].
    apply reachable_call, IH.
Qed.

Lemma session_invariant (a : RelayBoardApp) (m : Machine Dev) :
  session a m -> well_built a /\ shows a (state (self m)).
Proof.
  induction 1 as [d|ev a m _ IH _].
  - unfold new_app, refresh_ports, available_ports. cbn [fst snd self state init dev].
    apply (inv_same_indicators built_ui);
      [| | |split; [repeat split|split; reflexivity]];
      destruct (comports d); try destruct (negb _); reflexivity.
  - apply handle_keeps_invariant, IH.
Qed.

(** X14. On a window with its eight indicators and eight relay buttons,
    [_apply_state_to_ui st] returns normally; afterwards indicator and
    label [idx] show bit [idx] of [st], the buttons keep their enabled or
    disabled state, and nothing else of the window has changed. *)
Theorem apply_state_shows_the_mask (st : Z) (a : RelayBoardApp) :
  well_built a ->
  fst (_apply_state_to_ui st a) = None /\
  shows (snd (_apply_state_to_ui st a)) st /\
  well_built (snd (_apply_state_to_ui st a)) /\
  map btn_state (toggle_buttons (snd (_apply_state_to_ui st a))) =
    map btn_state (toggle_buttons a) /\
  set_toggle_buttons (set_state_vars (snd (_apply_state_to_ui st a)) (state_vars a))
                     (toggle_buttons a) = a.
Proof. exact (apply_state_result st a). Qed.

(** X15. Throughout a session the window shows the controller's cache:
    after start-up and after every handler, indicator and label [idx]
    show bit [idx] of the cache, and the cache is the only mask in
    0..255 the window shows. *)
Theorem window_shows_the_cache (a : RelayBoardApp) (m : Machine Dev) :
  session a m ->
  well_built a /\
  shows a (state (self m)) /\
  forall s, 0 <= s < 256 -> shows a s -> s = state (self m).
Proof.
  intros S. destruct (session_invariant a m S) as [W Sh].
  split; [exact W|]. split; [exact Sh|].
  intros s Hs Sh'. apply (shows_unique a); try assumption.
  apply reachable_cache_u8, session_reachable with (a := a), S.
Qed.


(** ** Handlers and exceptions *)

Lemma py_index_shows (a : RelayBoardApp) (s k : Z) :
  shows a s -> 0 <= k < 8 -> py_index (state_vars a) k = Some (Z.testbit s k).
Proof.
  intros [E _] Hk. rewrite E.
  assert (C : k = 0 \/ k = 1 \/ k = 2 \/ k = 3 \/ k = 4 \/ k = 5 \/ k = 6 \/ k = 7) by lia.
  destruct C as [->|[->|[->|[->|[->|[->|[->| ->]]]]]]]; reflexivity.
Qed.

Lemma selected_channels_in (k : Z) (vars : list bool) (c : Z) :
  In c (selected_channels k vars) <->
  exists i, nth_error vars i = Some true /\ c = k + Z.of_nat i + 1.
Proof.
  revert k. induction vars as [|active rest IH]; intros k; cbn [selected_channels].
  - split; [intros []|intros ([|i] & E & _); discriminate E].
  - rewrite in_app_iff, IH. split.
    + intros [Hin | (i & E & ->)].
      * destruct active; [|destruct Hin]. destruct Hin as [<-|[]].
        exists 0%nat. split; [reflexivity|lia].
      * exists (S i). split; [exact E|lia].
    + intros ([|i] & E & ->).
      * injection E as ->. left. left. lia.
      * right. exists i. split; [exact E|lia].
Qed.

Lemma selected_channels_valid (vars : list bool) :
  List.length vars = 8%nat -> forallb valid_channel (selected_channels 0 vars) = true.
Proof.
  intros L. apply forallb_forall. intros c Hin. apply valid_channel_iff.
  apply selected_channels_in in Hin. destruct Hin as (i & E & ->).
  assert (i < 8)%nat by (rewrite <- L; apply nth_error_Some; congruence). lia.
Qed.

Lemma selected_channels_existsb (vars : list bool) (i : Z) :
  0 <= i ->
  existsb (Z.eqb (i + 1)) (selected_channels 0 vars) = nth (Z.to_nat i) vars false.
Proof.
  intros Hi. apply eq_true_iff_eq. rewrite existsb_exists. split.
  - intros (c & Hin & Hc). apply Z.eqb_eq in Hc. subst c.
    apply selected_channels_in in Hin. destruct Hin as (j & E & Hj).
    replace (Z.to_nat i) with j by lia. exact (nth_error_nth _ _ _ E).
  - intros N. exists (i + 1). split; [|apply Z.eqb_refl].
    apply selected_channels_in. exists (Z.to_nat i). split; [|lia].
    destruct (nth_error vars (Z.to_nat i)) as [v|] eqn:E.
    + rewrite (nth_error_nth _ _ _ E) in N. rewrite N. reflexivity.
    + apply nth_error_None in E. rewrite nth_overflow in N by exact E. discriminate N.
Qed.






(** ** Toggling and bulk switching through the window *)

Lemma toggle_mask (s c : Z) :
  1 <= c ->
  apply_channel (negb (Z.testbit s (c - 1))) s c = Z.lxor s (Z.shiftl 1 (c - 1)).
Proof.
  intros Hc. apply Z.bits_inj'. intros i Hi.
  rewrite apply_channel_testbit, Z.lxor_spec, Z.shiftl_1_l, Z.pow2_bits_eqb by lia.
  rewrite (Z.eqb_sym (c - 1) i).
  destruct (Z.eqb_spec i (c - 1)) as [->|_].
  - destruct (Z.testbit s (c - 1)); reflexivity.
  - rewrite xorb_false_r. reflexivity.
Qed.

(** X17. On a connected controller whose cache the window shows,
    [toggle_relay channel] for a channel in 1..8, on a transport that
    accepts the command, writes the cache with bit [channel-1] flipped
    ([s ^ (1 << (channel-1))]), stores it, and the window shows it. *)
Theorem toggle_relay_flips_the_channel
    (a : RelayBoardApp) (m : Machine Dev) (channel : Z) (b : byte) (d1 d2 : Dev) :
  well_built a ->
  shows a (state (self m)) ->
  is_connected (self m) = true ->
  0 <= state (self m) < 256 ->
  1 <= channel <= 8 ->
  int_of_byte b = Z.lxor (state (self m)) (Z.shiftl 1 (channel - 1)) ->
  Serial_reset_input_buffer (dev m) = (Ok tt, d1) ->
  Serial_write [x5c; b] d1 = (Ok tt, d2) ->
  exists a',
    toggle_relay channel a m =
      (None, a',
       mkMachine {| _serial := _serial (self m); port := port (self m);
                    state := Z.lxor (state (self m)) (Z.shiftl 1 (channel - 1)) |}
                 d2
                 (log m ++ [IoResetInputBuffer (Ok tt); IoWrite [x5c; b] (Ok tt)])) /\
    shows a' (Z.lxor (state (self m)) (Z.shiftl 1 (channel - 1))).
Proof.
  intros W Sh C Hs Hc B R Wr.
  unfold toggle_relay. rewrite C. cbn [negb].
  rewrite (py_index_shows a (state (self m))) by (exact Sh || lia).
  rewrite set_channel_unfold.
  replace (valid_channel channel) with true by (symmetry; apply valid_channel_iff; exact Hc).
  rewrite toggle_mask by lia.
  assert (U : Z.land (Z.lxor (state (self m)) (Z.shiftl 1 (channel - 1))) 255
              = Z.lxor (state (self m)) (Z.shiftl 1 (channel - 1))).
  { apply u8_land. rewrite <- B. apply int_of_byte_range. }
  rewrite (set_states_run m _ b d1 d2 C (eq_trans B (eq_sym U)) R Wr), U.
  destruct (apply_state_result (Z.lxor (state (self m)) (Z.shiftl 1 (channel - 1))) a W)
    as (N & S' & _).
  destruct (_apply_state_to_ui _ a) as [r a1]. cbn [fst snd] in N, S'. subst r.
  exists a1. split; [reflexivity|exact S'].
Qed.

(** X18. On a connected controller with at least one box ticked, when
    the [set_channels] call of [set_selected on] returns [v], the handler
    returns, the window shows [v], [v] is the cache, and bit [i] of [v]
    is [on] if box [i] is ticked and the old bit otherwise. *)
Theorem set_selected_drives_the_ticked_channels
    (a : RelayBoardApp) (m m1 : Machine Dev) (on : bool) (v : Z) :
  well_built a ->
  is_connected (self m) = true ->
  0 <= state (self m) < 256 ->
  selected_channels 0 (active_vars a) <> [] ->
  set_channels (selected_channels 0 (active_vars a)) on m = (Ok v, m1) ->
  exists a',
    set_selected on a m = (None, a', m1) /\
    shows a' v /\
    state (self m1) = v /\
    forall i, 0 <= i ->
      Z.testbit v i =
        if nth (Z.to_nat i) (active_vars a) false then on
        else Z.testbit (state (self m)) i.
Proof.
  intros W C Hs Ne E.
  unfold set_selected. rewrite C. cbn [negb].
  destruct (selected_channels 0 (active_vars a)) as [|c0 cs] eqn:Sel; [congruence|].
  rewrite E.
  destruct (apply_state_result v a W) as (N & S' & _).
  destruct (_apply_state_to_ui v a) as [r a1]. cbn [fst snd] in N, S'. subst r.
  exists a1. split; [reflexivity|]. split; [exact S'|].
  apply set_channels_ok_cache in E; [|exact Hs]. destruct E as (St & -> & V).
  split; [exact St|]. intros i Hi.
  rewrite fold_channels_testbit by (apply forallb_valid_lower, V || exact Hi).
  rewrite <- Sel, selected_channels_existsb by exact Hi. reflexivity.
Qed.


(** X19. With eight checkboxes, the channels [set_selected] hands to
    the controller are all in 1..8, and channel [c] is among them
    exactly when box [c-1] is ticked. *)
Theorem selected_channels_are_the_ticked_boxes (vars : list bool) :
  List.length vars = 8%nat ->
  forallb valid_channel (selected_channels 0 vars) = true /\
  forall c,
    In c (selected_channels 0 vars) <->
    1 <= c <= 8 /\ nth (Z.to_nat (c - 1)) vars false = true.
Proof.
  intros L. split; [exact (selected_channels_valid vars L)|].
  intros c. split.
  - intros Hin. split.
    + apply valid_channel_iff.
      exact (proj1 (forallb_forall _ _) (selected_channels_valid vars L) c Hin).
    + apply selected_channels_in in Hin. destruct Hin as (i & E & ->).
      replace (Z.to_nat (0 + Z.of_nat i + 1 - 1)) with i by lia.
      exact (nth_error_nth _ _ _ E).
  - intros [Hc N]. apply selected_channels_in. exists (Z.to_nat (c - 1)). split; [|lia].
    destruct (nth_error vars (Z.to_nat (c - 1))) as [v|] eqn:E.
    + rewrite (nth_error_nth _ _ _ E) in N. rewrite N. reflexivity.
    + apply nth_error_None in E. rewrite nth_overflow in N by exact E. discriminate N.
Qed.

(** ** The port list *)

Lemma existsb_eqb_in (x : string) (l : list string) :
  existsb (String.eqb x) l = true <-> In x l.
Proof.
  rewrite existsb_exists. split.
  - intros (y & Hin & E). apply String.eqb_eq in E. subst y. exact Hin.
  - intros Hin. exists x. split; [exact Hin|apply String.eqb_refl].
Qed.

(** X20. [refresh_ports] makes no transport call and returns normally;
    the port list becomes the enumerated ports; the selection becomes
    empty when there is no port, stays when it is still listed, and is
    a listed port whenever there is one. *)
Theorem refresh_ports_selects_a_listed_port (a : RelayBoardApp) (m : Machine Dev) :
  snd (refresh_ports a m) = m /\
  fst (fst (refresh_ports a m)) = None /\
  port_combo_values (snd (fst (refresh_ports a m))) = comports (dev m) /\
  (comports (dev m) = [] -> port_var (snd (fst (refresh_ports a m))) = "") /\
  (comports (dev m) <> [] ->
     In (port_var (snd (fst (refresh_ports a m)))) (comports (dev m))) /\
  (In (port_var a) (comports (dev m)) ->
     port_var (snd (fst (refresh_ports a m))) = port_var a).
Proof.
  unfold refresh_ports, available_ports. cbn [fst snd].
  destruct (comports (dev m)) as [|p0 ps] eqn:P.
  - do 3 (split; [reflexivity|]). split; [reflexivity|]. split; [congruence|intros []].
  - destruct (existsb (String.eqb (port_var a)) (p0 :: ps)) eqn:E; cbn [negb].
    + do 3 (split; [reflexivity|]). split; [discriminate|].
      apply existsb_eqb_in in E. split; [intros _; exact E|reflexivity].
    + do 3 (split; [reflexivity|]). split; [discriminate|].
      split; [intros _; left; reflexivity|].
      intros Hin. apply existsb_eqb_in in Hin. congruence.
Qed.

(** ** Controls and connection *)

Lemma handle_keeps_controls (ev : gui_event) (a : RelayBoardApp) (m : Machine Dev) :
  (destroyed a = false -> is_connected (self m) = false -> controls_disabled a) ->
  destroyed (snd (fst (handle ev a m))) = false ->
  is_connected (self (snd (handle ev a m))) = false ->
  controls_disabled (snd (fst (handle ev a m))).
Proof.
  intros IH. destruct ev as [| |idx|on| | |idx v|p]; cbn [handle].
  - unfold refresh_ports, available_ports. cbn [fst snd]. intros D C.
    assert (I : controls_disabled a).
    { apply IH; [|exact C]. destruct (comports (dev m)); try destruct (negb _); exact D. }
    destruct (comports (dev m)); try destruct (negb _); exact I.
  - unfold toggle_connection. destruct (is_connected (self m)) eqn:C0.
    + rewrite close_run. cbn [fst snd]. intros _ _. split; [|reflexivity].
      unfold _set_controls_enabled. cbn [toggle_buttons bulk_buttons set_bulk_buttons
        set_toggle_buttons set_connect_button set_status_var].
      rewrite <- map_app. apply Forall_forall. intros b Hin.
      apply in_map_iff in Hin. destruct Hin as (b0 & <- & _). reflexivity.
    + destruct (String.eqb (port_var a) ""); [cbn [fst snd]; intros D C; exact (IH D eq_refl)|].
      destruct (connect (port_var a) m) as [r m1] eqn:E.
      pose proof (connect_outcome_cases m m1 (port_var a) r E) as O.
      destruct r as [st|[exc|msg]].
      * destruct O as [O _]. destruct (_apply_state_to_ui st _) as [r a4].
        cbn [fst snd]. intros _ C. unfold is_connected in C. rewrite O in C. discriminate C.
      * cbn [fst snd]. intros D _. exact (IH D eq_refl).
      * cbn [fst snd]. intros D _. exact (IH D eq_refl).
  - unfold toggle_relay. destruct (is_connected (self m)) eqn:C0; cbn [negb].
    + destruct (py_index _ _) as [shown|]; [|cbn [fst snd]; congruence].
      pose proof (keeps_connection_frame (Call_set_channel (Z.of_nat idx + 1) (negb shown))
                    m eq_refl) as [S _]. cbn [after] in S.
      destruct (set_channel _ _ m) as [[st|[exc|msg]] m1]; cbn [snd] in S;
        try destruct (_apply_state_to_ui st a) as [r a1]; cbn [fst snd];
        intros _ C; unfold is_connected in C, C0; rewrite S, C0 in C; discriminate C.
    + cbn [fst snd]. intros D C. exact (IH D eq_refl).
  - unfold set_selected. destruct (is_connected (self m)) eqn:C0; cbn [negb].
    + destruct (selected_channels 0 (active_vars a)) as [|c0 cs];
        [cbn [fst snd]; congruence|].
      pose proof (keeps_connection_frame (Call_set_channels (c0 :: cs) on) m eq_refl)
        as [S _]. cbn [after] in S.
      destruct (set_channels _ _ m) as [[st|[exc|msg]] m1]; cbn [snd] in S;
        try destruct (_apply_state_to_ui st a) as [r a1]; cbn [fst snd];
        intros _ C; unfold is_connected in C, C0; rewrite S, C0 in C; discriminate C.
    + cbn [fst snd]. intros D C. exact (IH D eq_refl).
  - unfold refresh_states. destruct (is_connected (self m)) eqn:C0; cbn [negb].
    + pose proof (keeps_connection_frame Call_get_states m eq_refl) as [S _].
      cbn [after] in S.
      destruct (get_states m) as [[[st|]|[exc|msg]] m1]; cbn [snd] in S;
        try destruct (_apply_state_to_ui st a) as [r a1]; cbn [fst snd];
        intros _ C; unfold is_connected in C, C0; rewrite S, C0 in C; discriminate C.
    + cbn [fst snd]. intros D C. exact (IH D eq_refl).
  - unfold on_close. rewrite close_run. cbn [fst snd destroy destroyed]. discriminate.
  - cbn [fst snd]. intros D C.
    assert (I : controls_disabled a).
    { apply IH; [|exact C]. destruct (update_at _ _ _); exact D. }
    destruct (update_at _ _ _); exact I.
  - cbn [fst snd]. intros D C. exact (IH D C).
Qed.

(** X21. Throughout a session, while the window is not destroyed and
    the controller is not connected, every relay button and bulk button
    is disabled and the connection button reads Connect. *)
Theorem controls_enabled_only_while_connected (a : RelayBoardApp) (m : Machine Dev) :
  session a m ->
  destroyed a = false ->
  is_connected (self m) = false ->
  controls_disabled a.
Proof.
  induction 1 as [d|ev a m _ IH _].
  - intros _ _. unfold new_app, refresh_ports, available_ports. cbn [fst snd dev].
    split.
    + destruct (comports d); try destruct (negb _); repeat constructor.
    + destruct (comports d); try destruct (negb _); reflexivity.
  - apply handle_keeps_controls, IH.
Qed.


End AppProofs.

(** * Further scenarios on the simulated board *)

Lemma connect_with_response_scenario :
  connect "COM3" (mkMachine init (board x2a false false) []) =
    (Ok 42,
     mkMachine (connected 42) (board x2a false false)
       [IoOpen "COM3" 19200 1 1 (Ok tt); IoResetInputBuffer (Ok tt);
        IoWrite [x5b] (Ok tt); IoRead 1 (Ok [x2a])]).
Proof.
  exact (connect_with_response
           (mkMachine init (board x2a false false) []) "COM3" x2a []
           (board x2a false false) (board x2a false false)
           (mkSim ["COM3"%string] x2a [x2a] false false) (board x2a false false)
           eq_refl eq_refl eq_refl eq_refl).
Defined.

Lemma connect_open_raises_scenario :
  connect "COM9" (mkMachine (connected 42) (board x2a false false) []) =
    (Raise (SerialException "could not open port"),
     mkMachine {| _serial := None; port := None; state := 42 |}
       (board x2a false false)
       [IoClose; IoOpen "COM9" 19200 1 1 (Raise (SerialException "could not open port"))]).
Proof.
  exact (connect_open_raises
           (mkMachine (connected 42) (board x2a false false) []) "COM9"
           (SerialException "could not open port") (board x2a false false) eq_refl).
Defined.

Lemma failed_call_leaves_controller_scenario :
  self (mkMachine (connected 42) (board x2a false true)
          [IoResetInputBuffer (Ok tt);
           IoWrite [x5c; x2b] (Raise (SerialException "Write timeout"))]) =
  self (mkMachine (connected 42) (board x2a false true) []).
Proof.
  exact (proj1 (proj2 (proj2
           (failed_call_leaves_controller
              (mkMachine (connected 42) (board x2a false true) []))))
           1 true (SerialException "Write timeout") _ eq_refl).
Defined.

Lemma only_connect_and_close_change_the_connection_scenario :
  _serial (self (after (Call_set_states 7)
                   (mkMachine (connected 42) (board x2a false true) []))) =
    _serial (connected 42) /\
  port (self (after (Call_set_states 7)
                (mkMachine (connected 42) (board x2a false true) []))) =
    port (connected 42) /\
  is_connected (self (after (Call_set_states 7)
                        (mkMachine (connected 42) (board x2a false true) []))) =
    is_connected (connected 42).
Proof.
  exact (only_connect_and_close_change_the_connection
           (Call_set_states 7) (mkMachine (connected 42) (board x2a false true) [])
           eq_refl).
Defined.

Lemma three_calls_reachable : reachable three_calls.
Proof. repeat apply reachable_call. apply reachable_init. Defined.

Lemma reachable_handle_is_open_on_its_port_scenario :
  handle_coherent (self three_calls) /\
  (is_connected (self three_calls) = true <-> _serial (self three_calls) <> None).
Proof.
  exact (reachable_handle_is_open_on_its_port three_calls three_calls_reachable).
Defined.

Lemma reachable_log_respects_port_ownership_scenario :
  port_usage false (log three_calls) = Some (is_connected (self three_calls)).
Proof.
  exact (reachable_log_respects_port_ownership three_calls three_calls_reachable).
Defined.

Lemma reachable_log_flushes_before_write_scenario :
  disciplined None (log three_calls) = true.
Proof.
  exact (reachable_log_flushes_before_write three_calls three_calls_reachable).
Defined.

Lemma set_channels_changes_exactly_the_listed_bits_scenario :
  state (connected 43) = 43 /\
  forall i, 0 <= i ->
    Z.testbit 43 i =
      if existsb (Z.eqb (i + 1)) [2; 4; 6] then true else Z.testbit 1 i.
Proof.
  exact (set_channels_changes_exactly_the_listed_bits
           (mkMachine (connected 1) (board x01 false false) [])
           (mkMachine (connected 43) (board x2b false false)
              [IoResetInputBuffer (Ok tt); IoWrite [x5c; x2b] (Ok tt)])
           [2; 4; 6] true 43 ltac:(cbn; lia) eq_refl).
Defined.

Lemma set_channel_changes_exactly_one_bit_scenario :
  state (connected 34) = 34 /\
  forall i, 0 <= i ->
    Z.testbit 34 i = if i =? 4 - 1 then false else Z.testbit 42 i.
Proof.
  exact (set_channel_changes_exactly_one_bit
           (mkMachine (connected 42) (board x2a false false) [])
           (mkMachine (connected 34) (board x22 false false)
              [IoResetInputBuffer (Ok tt); IoWrite [x5c; x22] (Ok tt)])
           4 false 34 ltac:(cbn; lia) eq_refl).
Defined.

Lemma set_channels_ignores_order_and_repeats_scenario :
  set_channels [2; 4; 6] true (mkMachine (connected 1) (board x01 false false) []) =
  set_channels [6; 2; 4; 2] true (mkMachine (connected 1) (board x01 false false) []).
Proof.
  apply (set_channels_ignores_order_and_repeats
           (mkMachine (connected 1) (board x01 false false) []) [2; 4; 6] [6; 2; 4; 2] true).
  intros c. cbn [In]. split; intros Hc; repeat destruct Hc as [Hc|Hc]; auto 10.
Defined.

Lemma set_channel_twice_writes_the_same_mask_scenario :
  46 = 46 /\ state (connected 46) = state (connected 46).
Proof.
  exact (set_channel_twice_writes_the_same_mask
           (mkMachine (connected 42) (board x2a false false) [])
           (mkMachine (connected 46) (board x2e false false)
              [IoResetInputBuffer (Ok tt); IoWrite [x5c; x2e] (Ok tt)])
           (mkMachine (connected 46) (board x2e false false)
              [IoResetInputBuffer (Ok tt); IoWrite [x5c; x2e] (Ok tt);
               IoResetInputBuffer (Ok tt); IoWrite [x5c; x2e] (Ok tt)])
           3 true 46 46 ltac:(cbn; lia) eq_refl eq_refl).
Defined.

Lemma clicked_connect_session : session (snd (fst clicked_connect)) (snd clicked_connect).
Proof. exact (session_event Click_connect _ _ (session_start _) eq_refl). Defined.

Lemma apply_state_shows_the_mask_scenario :
  fst (_apply_state_to_ui 42 built_ui) = None /\
  shows (snd (_apply_state_to_ui 42 built_ui)) 42 /\
  well_built (snd (_apply_state_to_ui 42 built_ui)) /\
  map btn_state (toggle_buttons (snd (_apply_state_to_ui 42 built_ui))) =
    map btn_state (toggle_buttons built_ui) /\
  set_toggle_buttons
    (set_state_vars (snd (_apply_state_to_ui 42 built_ui)) (state_vars built_ui))
    (toggle_buttons built_ui) = built_ui.
Proof.
  exact (apply_state_shows_the_mask 42 built_ui
           (conj eq_refl (conj eq_refl eq_refl))).
Defined.

Lemma window_shows_the_cache_scenario :
  well_built (snd (fst clicked_connect)) /\
  shows (snd (fst clicked_connect)) (state (self (snd clicked_connect))) /\
  forall s, 0 <= s < 256 -> shows (snd (fst clicked_connect)) s ->
    s = state (self (snd clicked_connect)).
Proof.
  exact (window_shows_the_cache _ _ clicked_connect_session).
Defined.


Lemma toggle_relay_flips_the_channel_scenario :
  exists a',
    toggle_relay 3 built_ui (mkMachine (connected 0) (board x00 false false) []) =
      (None, a',
       mkMachine (connected 4) (board x04 false false)
         [IoResetInputBuffer (Ok tt); IoWrite [x5c; x04] (Ok tt)]) /\
    shows a' 4.
Proof.
  exact (toggle_relay_flips_the_channel
           built_ui (mkMachine (connected 0) (board x00 false false) []) 3 x04
           (board x00 false false) (board x04 false false)
           (conj eq_refl (conj eq_refl eq_refl)) (conj eq_refl eq_refl)
           eq_refl ltac:(cbn; lia) ltac:(lia) eq_refl eq_refl eq_refl).
Defined.

Lemma set_selected_drives_the_ticked_channels_scenario :
  exists a',
    set_selected true (set_active_vars built_ui [false; true; false; true; false; true; false; false])
      (mkMachine (connected 1) (board x01 false false) []) =
      (None, a',
       mkMachine (connected 43) (board x2b false false)
         [IoResetInputBuffer (Ok tt); IoWrite [x5c; x2b] (Ok tt)]) /\
    shows a' 43 /\
    state (connected 43) = 43 /\
    forall i, 0 <= i ->
      Z.testbit 43 i =
        if nth (Z.to_nat i) [false; true; false; true; false; true; false; false] false
        then true else Z.testbit 1 i.
Proof.
  refine (set_selected_drives_the_ticked_channels
           (set_active_vars built_ui [false; true; false; true; false; true; false; false])
           (mkMachine (connected 1) (board x01 false false) [])
           (mkMachine (connected 43) (board x2b false false)
              [IoResetInputBuffer (Ok tt); IoWrite [x5c; x2b] (Ok tt)])
           true 43
           (conj eq_refl (conj eq_refl eq_refl)) eq_refl _ _ eq_refl).
  - cbn. lia.
  - intros E. discriminate E.
Defined.

Lemma selected_channels_are_the_ticked_boxes_scenario :
  forallb valid_channel
    (selected_channels 0 [false; true; false; true; false; true; false; false]) = true /\
  forall c,
    In c (selected_channels 0 [false; true; false; true; false; true; false; false]) <->
    1 <= c <= 8 /\
    nth (Z.to_nat (c - 1)) [false; true; false; true; false; true; false; false] false = true.
Proof.
  exact (selected_channels_are_the_ticked_boxes
           [false; true; false; true; false; true; false; false] eq_refl).
Defined.

Lemma refresh_ports_selects_a_listed_port_scenario :
  In (port_var (snd (fst started))) ["COM3"%string].
Proof.
  refine (proj1 (proj2 (proj2 (proj2 (proj2
            (refresh_ports_selects_a_listed_port built_ui
               (mkMachine init (board x2a false false) []))))))
            _).
  intros E. discriminate E.
Defined.

Lemma controls_enabled_only_while_connected_scenario :
  controls_disabled (snd (fst started)).
Proof.
  exact (controls_enabled_only_while_connected _ _
           (session_start (board x2a false false)) eq_refl eq_refl).
Defined.

